(** * Stock monitor: extraction, validation and snapshot diff

    A shallow embedding of [src/stock_monitor.py] (class
    [IntegratedStockMonitor]) and the properties of its validator, its
    extraction cascade, its snapshot store, its message formatting, its
    screening pass, its monitoring loop and the URLs it is configured with.

    Python strings are sequences of Unicode code points; they are modelled
    as lists of code points ([N]), so that [len] is [length], slicing is
    [take] and the emoji of the alert message are single characters. *)

From Stdlib Require Import NArith ZArith Ascii String.
From stdpp Require Import gmap list fin_maps.

Local Open Scope N_scope.

(** ** Strings *)

Module Str.

Abbreviation str := (list N).

(** An ASCII literal as a Python string. *)
Definition lit (s : string) : str :=
  List.map N_of_ascii (list_ascii_of_string s).

(** [str.isspace] on one character: the code points CPython's
    [_PyUnicode_IsWhitespace] accepts.  The same set is what [\s] matches
    in a [str] pattern of [re]. *)
Definition isspace (c : N) : bool :=
  ((9 <=? c) && (c <=? 13)) || ((28 <=? c) && (c <=? 32))
  || (c =? 133) || (c =? 160) || (c =? 5760)
  || ((8192 <=? c) && (c <=? 8202))
  || (c =? 8232) || (c =? 8233) || (c =? 8239) || (c =? 8287) || (c =? 12288).

Definition space : N := 32.
Definition newline : N := 10.

Fixpoint lstrip (s : str) : str :=
  match s with
  | [] => []
  | c :: s' => if isspace c then lstrip s' else s
  end.

Definition rstrip (s : str) : str := rev (lstrip (rev s)).

(** [s.strip()] *)
Definition strip (s : str) : str := rstrip (lstrip s).

(** [c in s] for a one-character [c]. *)
Definition has_char (c : N) (s : str) : bool := existsb (N.eqb c) s.

Fixpoint startswith (p s : str) : bool :=
  match p, s with
  | [], _ => true
  | a :: p', b :: s' => (a =? b) && startswith p' s'
  | _ :: _, [] => false
  end.

(** [p in s]: substring test. *)
Fixpoint contains (p s : str) : bool :=
  startswith p s ||
  match s with
  | [] => false
  | _ :: s' => contains p s'
  end.

(** [re.sub(r'\s+', ' ', s)]: every maximal run of whitespace becomes one
    space.  [in_run] tells whether the previous character was whitespace. *)
Fixpoint collapse_from (in_run : bool) (s : str) : str :=
  match s with
  | [] => []
  | c :: s' =>
      if isspace c
      then (if in_run then collapse_from true s' else space :: collapse_from true s')
      else c :: collapse_from false s'
  end.

Definition collapse_ws (s : str) : str := collapse_from false s.

Definition is_upper (c : N) : bool := (65 <=? c) && (c <=? 90).
Definition is_lower (c : N) : bool := (97 <=? c) && (c <=? 122).
Definition is_digit (c : N) : bool := (48 <=? c) && (c <=? 57).
Definition is_alnum (c : N) : bool := is_upper c || is_lower c || is_digit c.

(** [re.sub(r'[^A-Za-z0-9]', '', s)] *)
Definition keep_alnum (s : str) : str := List.filter is_alnum s.

(** [sep.join(parts)] *)
Fixpoint join (sep : str) (parts : list str) : str :=
  match parts with
  | [] => []
  | [p] => p
  | p :: ps => p ++ sep ++ join sep ps
  end.

(** [str(n)] for a non-negative integer given by its digits, most
    significant last in the accumulator. *)
Fixpoint digits_fuel (fuel : nat) (n : N) (acc : str) : str :=
  match fuel with
  | O => acc
  | S fuel' =>
      let acc' := (48 + n mod 10) :: acc in
      if n / 10 =? 0 then acc' else digits_fuel fuel' (n / 10) acc'
  end.

Definition of_N (n : N) : str := digits_fuel (S (N.to_nat (N.log2 n))) n [].

(** [str(i)] for a Python integer. *)
Definition of_Z (z : Z) : str :=
  match z with
  | Zneg p => 45 :: of_N (Npos p)
  | _ => of_N (Z.to_N z)
  end.

End Str.
Import Str.

(** ** Regular expressions of the validator

    The five patterns of [_is_valid_stock_symbol] use anchors, one-character
    classes and bounded repetition only; [re.match] on them is embedded as
    a backtracking matcher over that fragment. *)

Module Re.

Inductive atom : Type :=
| Range (lo hi : N)          (* [A-Z], [0-9] *)
| Char (c : N).              (* \. *)

Inductive piece : Type :=
| Bol                        (* ^ *)
| Eol                        (* $ *)
| Rep (a : atom) (lo hi : nat).   (* a{lo,hi} *)

Definition regex := list piece.

Definition atom_matches (a : atom) (c : N) : bool :=
  match a with
  | Range lo hi => (lo <=? c) && (c <=? hi)
  | Char d => c =? d
  end.

(** Greedy bounded repetition with backtracking: take one more character
    when allowed, fall back to the continuation [k] once [lo] is met.
    [pos] is the offset of [s] in the subject string. *)
Fixpoint match_rep (a : atom) (k : str -> nat -> bool)
    (lo hi : nat) (s : str) (pos : nat) : bool :=
  match hi with
  | O => match lo with O => k s pos | S _ => false end
  | S hi' =>
      (match s with
       | c :: s' => atom_matches a c && match_rep a k (Nat.pred lo) hi' s' (S pos)
       | [] => false
       end)
      || match lo with O => k s pos | S _ => false end
  end.

Fixpoint match_pieces (r : regex) (s : str) (pos : nat) : bool :=
  match r with
  | [] => true
  | Bol :: r' => Nat.eqb pos 0 && match_pieces r' s pos
  | Eol :: r' =>
      (* $ without MULTILINE: at the end, or before a final newline *)
      (match s with
       | [] => true
       | [c] => c =? newline
       | _ => false
       end) && match_pieces r' s pos
  | Rep a lo hi :: r' => match_rep a (match_pieces r') lo hi s pos
  end.

(** [re.match(pattern, s)] as a truth value. *)
Definition re_match (r : regex) (s : str) : bool := match_pieces r s 0.

Definition AZ : atom := Range 65 90.
Definition D09 : atom := Range 48 57.

End Re.
Import Re.

(** ** The validator *)

(** The list [patterns] of [_is_valid_stock_symbol]. *)
Definition patterns : list regex :=
  [ [Bol; Rep AZ 1 5; Eol];                          (* ^[A-Z]{1,5}$ *)
    [Bol; Rep AZ 1 4; Rep (Char 46) 1 1; Rep AZ 1 2; Eol];  (* ^[A-Z]{1,4}\.[A-Z]{1,2}$ *)
    [Bol; Rep AZ 1 3; Rep D09 1 2; Eol];             (* ^[A-Z]{1,3}[0-9]{1,2}$ *)
    [Bol; Rep AZ 2 15; Eol];                         (* ^[A-Z]{2,15}$ *)
    [Bol; Rep AZ 1 10; Rep D09 1 2; Eol] ].          (* ^[A-Z]{1,10}[0-9]{1,2}$ *)

Definition is_nil {A} (l : list A) : bool :=
  match l with [] => true | _ => false end.

Definition _is_valid_stock_symbol (text : str) : bool :=
  if is_nil text || (50 <? length text)%nat then false
  else
    let clean_text := strip text in
    if is_nil clean_text then false
    else if has_char space clean_text
    then (3 <=? length clean_text)%nat && (length clean_text <=? 50)%nat
    else
      let symbol_text := keep_alnum clean_text in
      if is_nil symbol_text then false
      else existsb (fun pattern => re_match pattern symbol_text) patterns.

(** ** Exceptions, documents and the effects of the extractor *)

(** A raised exception, by its message ([str(e)]). *)
Inductive exn : Type := Exception (msg : str).

Definition exn_str (e : exn) : str := let 'Exception msg := e in msg.

(** A parsed element (a BeautifulSoup [Tag]; the document itself is one):
    its text and, for each CSS selector, what [select] gives, which is a
    list of elements or a raised error. *)
#[local] Set Warnings "-register-all".
Inductive Tag : Type :=
| mkTag (text : str) (sel : str -> exn + list Tag).

Definition get_text (t : Tag) : str := let 'mkTag text _ := t in text.
Definition select (t : Tag) (selector : str) : exn + list Tag :=
  let 'mkTag _ sel := t in sel selector.

(** Code that appends to the local list [stocks] and may raise: the list
    built so far survives a raise, as the [except] clauses of the source
    return or keep it. *)
Definition M (A : Type) : Type := list str -> (exn + A) * list str.

#[global] Instance M_ret : MRet M := fun A a st => (inr a, st).
#[global] Instance M_bind : MBind M := fun A B f m st =>
  match m st with
  | (inl e, st') => (inl e, st')
  | (inr a, st') => f a st'
  end.

Definition lift {A} (r : exn + A) : M A := fun st => (r, st).
Definition append (x : str) : M unit := fun st => (inr tt, st ++ [x]).
Definition extend (xs : list str) : M unit := fun st => (inr tt, st ++ xs).
Definition get_stocks : M (list str) := fun st => (inr st, st).
Definition when (b : bool) (m : M unit) : M unit := if b then m else mret tt.

(** [try: m except Exception as e: h e] *)
Definition try_except {A} (m : M A) (h : exn -> M A) : M A := fun st =>
  match m st with
  | (inl e, st') => h e st'
  | r => r
  end.

Fixpoint for_each {A} (l : list A) (body : A -> M unit) : M unit :=
  match l with
  | [] => mret tt
  | x :: l' => body x;; for_each l' body
  end.

(** [stocks = []; try: m except: pass; return stocks] *)
Definition collect (m : M unit) : list str := snd (m []).

(** [list(set(stocks))]: the distinct elements, in an order Python leaves
    open; the model enumerates the set in the order of its representation,
    and the theorems rely on membership and absence of duplicates only. *)
Definition dedup (stocks : list str) : list str :=
  elements (list_to_set stocks : gset str).

Definition dq : str := [34].

Definition stock_name_selector : str :=
  lit "[class*=" ++ dq ++ lit "stock" ++ dq ++ lit "], [class*=" ++ dq
  ++ lit "name" ++ dq ++ lit "], [data-stock]".

(** ** Site-special and table extraction *)

Definition _extract_from_scanx (soup : Tag) : list str :=
  collect (
    (* Method 1 *)
    table_rows ← lift (select soup (lit "table tbody tr"));
    for_each table_rows (fun row =>
      cells ← lift (select row (lit "td"));
      match cells with
      | [] => mret tt
      | cell0 :: _ =>
          let first_cell := strip (get_text cell0) in
          when (negb (is_nil first_cell) && (3 <? length first_cell)%nat) (
            let clean_name := strip (collapse_ws first_cell) in
            when (has_char space clean_name && (5 <=? length clean_name)%nat)
              (append clean_name))
      end);;
    (* Method 2 *)
    stocks ← get_stocks;
    when (is_nil stocks) (
      stock_elements ← lift (select soup stock_name_selector);
      for_each stock_elements (fun element =>
        let text := strip (get_text element) in
        when (negb (is_nil text) && (3 <? length text)%nat) (
          let clean_name := strip (collapse_ws text) in
          when (has_char space clean_name && (5 <=? length clean_name)%nat)
            (append clean_name))));;
    (* Method 3 *)
    stocks ← get_stocks;
    when (is_nil stocks) (
      all_text_elements ← lift (select soup (lit "td, div, span"));
      for_each all_text_elements (fun element =>
        let text := strip (get_text element) in
        when (negb (is_nil text) && (10 <? length text)%nat && (length text <? 100)%nat) (
          when (has_char space text
                && (contains (lit "NSE") text || contains (lit "BSE") text
                    || contains (lit "&") text)) (
            let clean_name := strip (collapse_ws text) in
            when (5 <=? length clean_name)%nat (append clean_name)))))
  ).

Definition IndexError : exn := Exception (lit "list index out of range").

Definition _extract_from_tables (soup : Tag) : list str :=
  collect (
    table_rows ← lift (select soup (lit "tr"));
    for_each table_rows (fun row =>
      cells ← lift (select row (lit "td, th"));
      match cells with
      | [] => mret tt
      | cell0 :: _ =>
          let first_cell := strip (get_text cell0) in
          when (_is_valid_stock_symbol first_cell) (append first_cell);;
          for_each (seq 1 (Nat.min (length cells) 3 - 1)) (fun i =>
            match cells !! i with
            | None => lift (inl IndexError)
            | Some cell =>
                let cell_text := strip (get_text cell) in
                when (_is_valid_stock_symbol cell_text) (append cell_text)
            end)
      end);;
    stocks ← get_stocks;
    when (is_nil stocks) (
      stock_name_elements ← lift (select soup stock_name_selector);
      for_each stock_name_elements (fun element =>
        let text := strip (get_text element) in
        when (_is_valid_stock_symbol text) (append text)))
  ).

(** ** The monitor object and its surroundings *)

(** The attributes of [IntegratedStockMonitor] the core reads or writes.
    [default_selectors] is a [dict] iterated in insertion order, kept as an
    association list; [url_stocks] is the snapshot store. *)
Record Monitor : Type := mkMonitor {
  screener_urls : list str;
  check_interval : Z;
  url_stocks : gmap str (gset str);
  default_selectors : list (str * list str);
}.

Definition set_url_stocks (f : gmap str (gset str) -> gmap str (gset str))
    (self : Monitor) : Monitor :=
  {| screener_urls := screener_urls self;
     check_interval := check_interval self;
     url_stocks := f (url_stocks self);
     default_selectors := default_selectors self |}.

(** [__init__]: an empty snapshot for every configured URL and the table
    of selector profiles. *)
Definition init (screener_urls : list str) (check_interval : Z) : Monitor :=
  {| screener_urls := screener_urls;
     check_interval := check_interval;
     url_stocks :=
       fold_left (fun m url => <[url := ∅]> m) screener_urls ∅;
     default_selectors :=
       [ (lit "finviz.com", [lit ".screener-link"; lit ".screener-body-cell"]);
         (lit "yahoo.com", [lit ".ticker"; lit ".symbol"]);
         (lit "marketwatch.com", [lit ".symbol"; lit ".ticker"]);
         (lit "seekingalpha.com", [lit ".symbol"; lit ".ticker"]);
         (lit "stocktwits.com", [lit ".symbol"; lit ".ticker"]);
         (lit "scanx.trade",
          [ lit "table tbody tr td:first-child";
            lit "tr td:first-child";
            lit "td:first-child";
            lit ".stock-name";
            lit "[data-stock-name]";
            lit "td" ]) ] |}.

(** An HTTP response: its status code and what
    [BeautifulSoup(response.content, 'html.parser')] makes of its body. *)
Record Response : Type := mkResponse {
  status_code : Z;
  soup_of : exn + Tag;
}.

(** What one call of a method meets outside the program: the outcome of
    the primary request (30 s timeout), of the fallback request (other
    headers, 15 s timeout), and the reading of
    [datetime.now().strftime('%Y-%m-%d %H:%M:%S')]. *)
Record World : Type := mkWorld {
  requests_get : str -> exn + Response;
  requests_get_fallback : str -> exn + Response;
  now_strftime : str;
}.

Definition AttributeError_lower : exn :=
  Exception (lit "'NoneType' object has no attribute 'lower'").

Section Monitor.

(** [urlparse(url).hostname]: raises, is [None], or is a host name. *)
Variable urlparse_hostname : str -> exn + option str.

(** [str.lower] *)
Variable lower : str -> str.

(** [urlparse(url).hostname.lower()] *)
Definition hostname_lower (url : str) : exn + str :=
  match urlparse_hostname url with
  | inl e => inl e
  | inr None => inl AttributeError_lower
  | inr (Some hostname) => inr (lower hostname)
  end.

Definition generic_selectors : list str :=
  [ lit ".stock-symbol"; lit ".ticker"; lit ".symbol"; lit "[data-symbol]";
    lit ".stock"; lit ".ticker-symbol" ].

Fixpoint first_profile (domain : str) (items : list (str * list str))
    : option (list str) :=
  match items with
  | [] => None
  | (key, selectors) :: items' =>
      if contains key domain then Some selectors
      else first_profile domain items'
  end.

Definition _get_default_selectors (self : Monitor) (url : str)
    : exn + list str :=
  match hostname_lower url with
  | inl e => inl e
  | inr domain =>
      match first_profile domain (default_selectors self) with
      | Some selectors => inr selectors
      | None => inr generic_selectors
      end
  end.

(** The [for selector in selectors] loop of [get_stocks_from_url]: a raise
    inside one turn is caught and the loop goes on ([continue]); a turn
    that leaves [stocks] non-empty ends the loop ([break]). *)
Fixpoint profile_loop (soup : Tag) (selectors : list str) : M unit :=
  match selectors with
  | [] => mret tt
  | selector :: rest =>
      try_except
        (elements ← lift (select soup selector);
         for_each elements (fun element =>
           let text := strip (get_text element) in
           when (_is_valid_stock_symbol text) (append text));;
         stocks ← get_stocks;
         (mret (negb (is_nil stocks)) : M bool))
        (fun e => (mret false : M bool))
      ≫= fun stop : bool =>
      if stop then (mret tt : M unit) else profile_loop soup rest
  end.

Definition _get_stocks_with_fallback (w : World) (url : str) : list str :=
  match requests_get_fallback w url with
  | inl e => []
  | inr response =>
      if (status_code response =? 200)%Z then
        match soup_of response with
        | inl e => []
        | inr soup => _extract_from_scanx soup
        end
      else []
  end.

(** The [try] block of [get_stocks_from_url]; a status other than 200
    falls through to the final [return []]. *)
Definition get_stocks_try (w : World) (self : Monitor) (url : str)
    : M (list str) :=
  response ← lift (requests_get w url);
  if (status_code response =? 200)%Z then
    soup ← lift (soup_of response);
    domain ← lift (hostname_lower url);
    early ← (if contains (lit "scanx.trade") domain then
               extend (_extract_from_scanx soup);;
               stocks ← get_stocks;
               mret (if is_nil stocks then None else Some (dedup stocks))
             else mret None);
    match early with
    | Some found => mret found
    | None =>
        selectors ← lift (_get_default_selectors self url);
        profile_loop soup selectors;;
        stocks ← get_stocks;
        when (is_nil stocks) (extend (_extract_from_tables soup));;
        stocks ← get_stocks;
        mret (dedup stocks)
    end
  else mret [].

Definition get_stocks_from_url (w : World) (self : Monitor) (url : str)
    : list str :=
  match fst (get_stocks_try w self url []) with
  | inr found => found
  | inl e =>
      if contains (lit "CORS") (exn_str e)
         || contains (lit "ClientException") (exn_str e)
      then _get_stocks_with_fallback w url
      else []
  end.

(** ** Differ and snapshot store *)

Definition get_new_stocks_for_url (w : World) (self : Monitor) (url : str)
    : list str * Monitor :=
  let current_stocks : gset str := list_to_set (get_stocks_from_url w self url) in
  let last_stocks : gset str := default ∅ (url_stocks self !! url) in
  let new_stocks := current_stocks ∖ last_stocks in
  let self' :=
    if decide (current_stocks = ∅) then self
    else set_url_stocks (fun store => <[url := current_stocks]> store) self in
  (elements new_stocks, self').

(** ** Alert formatting *)

(** [f'{domain}'] for the optional host name. *)
Definition fmt_option (domain : option str) : str :=
  match domain with
  | None => lit "None"
  | Some d => d
  end.

Definition nl : str := [newline].
Definition siren : str := [128680].        (* U+1F6A8 *)
Definition chart : str := [128200].        (* U+1F4C8 *)
Definition globe : str := [127760].        (* U+1F310 *)
Definition clock : str := [9200].          (* U+23F0 *)
Definition link : str := [128279].         (* U+1F517 *)
Definition bullet : str := [8226].         (* U+2022 *)
Definition bell : str := [128276].         (* U+1F514 *)

(** The lines shared by both forms of the alert, from [Source] on. *)
Definition message_footer (w : World) (url : str) (domain : option str) : str :=
  globe ++ lit " <b>Source:</b> " ++ fmt_option domain ++ nl
  ++ clock ++ lit " <b>Detected:</b> " ++ now_strftime w ++ nl
  ++ nl
  ++ lit "<a href=" ++ dq ++ url ++ dq ++ lit ">" ++ link
  ++ lit " View Screener</a>" ++ nl.

Definition format_stock_message (w : World) (self : Monitor) (url : str)
    (new_stocks : list str) : exn + str :=
  match urlparse_hostname url with
  | inr domain =>
      let message :=
        match new_stocks with
        | [stock] =>
            nl ++ siren ++ lit " <b>New Stock Alert!</b>" ++ nl
            ++ nl
            ++ chart ++ lit " <b>Stock:</b> " ++ stock ++ nl
            ++ message_footer w url domain
        | _ =>
            let stocks_list :=
              join nl (List.map (fun stock => bullet ++ lit " " ++ stock)
                         (take 10 new_stocks)) in
            let more_text :=
              if (10 <? length new_stocks)%nat
              then nl ++ lit "... and "
                   ++ of_Z (Z.of_nat (length new_stocks) - 10) ++ lit " more"
              else [] in
            nl ++ siren ++ lit " <b>" ++ of_Z (Z.of_nat (length new_stocks))
            ++ lit " New Stocks Alert!</b>" ++ nl
            ++ nl
            ++ chart ++ lit " <b>New Stocks:</b>" ++ nl
            ++ stocks_list ++ more_text ++ nl
            ++ nl
            ++ message_footer w url domain
        end in
      inr (strip message)
  | inl e =>
      (* the handler parses the URL once more *)
      match urlparse_hostname url with
      | inl e' => inl e'
      | inr domain =>
          inr (bell ++ lit " New stocks detected from " ++ fmt_option domain
               ++ lit ": " ++ join (lit ", ") (take 5 new_stocks))
      end
  end.

End Monitor.

(** ** Specification-side definitions *)

(** The words a pattern accepts from offset [pos], read off the pattern. *)
Fixpoint accepts (r : regex) (s : str) (pos : nat) : Prop :=
  match r with
  | [] => True
  | Bol :: r' => pos = 0%nat /\ accepts r' s pos
  | Eol :: r' => (s = [] \/ s = [newline]) /\ accepts r' s pos
  | Rep a lo hi :: r' =>
      exists pre rest,
        s = pre ++ rest
        /\ Forall (fun c => atom_matches a c = true) pre
        /\ (lo <= length pre <= hi)%nat
        /\ accepts r' rest (pos + length pre)
  end.

(** The shapes of a symbol, in the words of the specification: runs of
    uppercase letters and of digits with bounds on their lengths. *)
Definition uppers (lo hi : nat) (s : str) : Prop :=
  Forall (fun c => is_upper c = true) s /\ (lo <= length s <= hi)%nat.

Definition digits (lo hi : nat) (s : str) : Prop :=
  Forall (fun c => is_digit c = true) s /\ (lo <= length s <= hi)%nat.

Definition dot : N := 46.

Definition symbol_shape (s : str) : Prop :=
  uppers 1 5 s
  \/ (exists a b, s = a ++ [dot] ++ b /\ uppers 1 4 a /\ uppers 1 2 b)
  \/ (exists a d, s = a ++ d /\ uppers 1 3 a /\ digits 1 2 d)
  \/ uppers 2 15 s
  \/ (exists a d, s = a ++ d /\ uppers 1 10 a /\ digits 1 2 d).

(** The candidates of one query strategy of the profile stage that pass
    the validator; a query that raises has none. *)
Definition accepted (soup : Tag) (selector : str) : list str :=
  match select soup selector with
  | inl _ => []
  | inr elements =>
      List.filter _is_valid_stock_symbol
        (List.map (fun element => strip (get_text element)) elements)
  end.

(** The test of the handler of [get_stocks_from_url] that hands over to the
    fallback request. *)
Definition mentions_cors (e : exn) : bool :=
  contains (lit "CORS") (exn_str e) || contains (lit "ClientException") (exn_str e).

(** The error, if any, that fetching and parsing the page raises. *)
Definition fetch_error (w : World) (url : str) : option exn :=
  match requests_get w url with
  | inl e => Some e
  | inr response =>
      if (status_code response =? 200)%Z then
        match soup_of response with
        | inl e => Some e
        | inr _ => None
        end
      else None
  end.

(** Whitespace-normalized text: trimming and collapsing change nothing. *)
Definition normalize (s : str) : str := strip (collapse_ws s).

Definition is_normalized (s : str) : bool := bool_decide (normalize s = s).

(** Text whose only whitespace is single spaces: a whitespace character
    must be a space and must not follow another ([prev_ws]). *)
Fixpoint collapsed_from (prev_ws : bool) (s : str) : bool :=
  match s with
  | [] => true
  | c :: s' =>
      if isspace c
      then (c =? space) && negb prev_ws && collapsed_from true s'
      else collapsed_from false s'
  end.

(** Code in [M] that keeps a property of all collected identifiers. *)
Definition keeps (P : str -> Prop) {A} (m : M A) : Prop :=
  forall st, Forall P st -> Forall P (snd (m st)).

(** Code in [M] that keeps [P] of the collected identifiers and returns
    a value with [Q]. *)
Definition sound (P : str -> Prop) {A} (Q : A -> Prop) (m : M A) : Prop :=
  forall st, Forall P st ->
    Forall P (snd (m st))
    /\ match fst (m st) with inr a => Q a | inl _ => True end.

(** ** Example documents and surroundings *)

Module Examples.

(** An element with text and no descendants. *)
Definition leaf (text : str) : Tag := mkTag text (fun _ => inr []).

(** A document in which exactly the query [selector] matches, giving
    elements with the texts [texts]. *)
Definition page (selector : str) (texts : list str) : Tag :=
  mkTag [] (fun s => if decide (s = selector) then inr (List.map leaf texts) else inr []).

(** A document with one answer per listed query. *)
Definition page_of (answers : list (str * list str)) : Tag :=
  mkTag [] (fun s =>
    match List.find (fun '(selector, _) => bool_decide (s = selector)) answers with
    | Some (_, texts) => inr (List.map leaf texts)
    | None => inr []
    end).

Definition example_url : str := lit "https://example.com/screen".
Definition scanx_url : str := lit "https://scanx.trade/stock-screener/nifty-500".
Definition relative_url : str := lit "screens/my-screen".

(** Host names of the example URLs, as [urlparse] gives them. *)
Definition hostname_of (url : str) : exn + option str :=
  if decide (url = example_url) then inr (Some (lit "example.com"))
  else if decide (url = scanx_url) then inr (Some (lit "scanx.trade"))
  else inr None.

(** [str.lower] on ASCII text. *)
Definition ascii_lower (s : str) : str :=
  List.map (fun c => if is_upper c then c + 32 else c) s.

(** Every request is answered 200 with the document [soup]; the clock
    reads [now]. *)
Definition serving (soup : Tag) (now : str) : World :=
  {| requests_get := fun _ => inr (mkResponse 200 (inr soup));
     requests_get_fallback := fun _ => inr (mkResponse 200 (inr soup));
     now_strftime := now |}.

(** Every request times out. *)
Definition offline (now : str) : World :=
  {| requests_get := fun _ => inl (Exception (lit "Read timed out."));
     requests_get_fallback := fun _ => inl (Exception (lit "Read timed out."));
     now_strftime := now |}.

Definition morning : str := lit "2026-01-05 09:30:00".
Definition later : str := lit "2026-01-05 09:35:00".

(** A company name of 56 characters and a cell text of 99. *)
Definition long_name : str :=
  lit "Housing Development Finance Corporation Limited of India".
Definition long_cell : str :=
  lit "Bajaj Holdings & Investments Limited NSE listed holding and "
  ++ lit "investment company of the Bajaj concern".

(** A scanX page whose only table row has the cells [cells]. *)
Definition scanx_table (cells : list str) : Tag :=
  mkTag [] (fun s =>
    if decide (s = lit "table tbody tr")
    then inr [mkTag [] (fun s' =>
                if decide (s' = lit "td") then inr (List.map leaf cells) else inr [])]
    else inr []).

Definition with_store (store : gmap str (gset str)) : Monitor :=
  set_url_stocks (fun _ => store) (init [example_url; scanx_url] 300).

End Examples.

(** ** Further specification-side definitions *)


(** The second pattern of the validator, [^[A-Z]{1,4}\.[A-Z]{1,2}$]. *)
Definition dotted_pattern : regex :=
  [Bol; Rep AZ 1 4; Rep (Char 46) 1 1; Rep AZ 1 2; Eol].

(** What Methods 1 and 2 of the site-special stage take from a trimmed
    text: its collapsed form, if the text has more than 3 characters and
    the collapsed form has a space and at least 5 characters. *)
Definition scanx_name (text : str) : list str :=
  if negb (is_nil text) && (3 <? length text)%nat then
    let clean_name := strip (collapse_ws text) in
    if has_char space clean_name && (5 <=? length clean_name)%nat
    then [clean_name] else []
  else [].

(** What Method 3 takes from a trimmed text. *)
Definition scanx_marked (text : str) : list str :=
  if negb (is_nil text) && (10 <? length text)%nat && (length text <? 100)%nat then
    if has_char space text
       && (contains (lit "NSE") text || contains (lit "BSE") text
           || contains (lit "&") text)
    then
      let clean_name := strip (collapse_ws text) in
      if (5 <=? length clean_name)%nat then [clean_name] else []
    else []
  else [].

(** The name Method 1 takes from a table row: that of its first cell. *)
Definition first_cell_name (row : Tag) : list str :=
  match select row (lit "td") with
  | inr (cell0 :: _) => scanx_name (strip (get_text cell0))
  | _ => []
  end.

Definition text_of (element : Tag) : str := strip (get_text element).

(** A query that returns without raising. *)
Definition answers {A} (r : exn + A) : Prop := exists a, r = inr a.

(** ** More example documents *)

Module MoreExamples.

Import Examples.

(** An element on which every query raises. *)
Definition broken : Tag :=
  mkTag [] (fun _ => inl (Exception (lit "Malformed selector"))).

(** A table row with the given cell texts. *)
Definition row_of (cells : list str) : Tag :=
  mkTag [] (fun s =>
    if decide (s = lit "td") then inr (List.map leaf cells)
    else if decide (s = lit "td, th") then inr (List.map leaf cells)
    else inr []).

(** A document whose rows are [rows], under both row queries, and in
    which no other query matches. *)
Definition table_of (rows : list Tag) : Tag :=
  mkTag [] (fun s =>
    if decide (s = lit "table tbody tr") then inr rows
    else if decide (s = lit "tr") then inr rows
    else inr []).

End MoreExamples.

(** What the generic table stage takes from a row: the validated texts of
    its first three cells. *)
Definition row_candidates (row : Tag) : list str :=
  match select row (lit "td, th") with
  | inr cells => List.filter _is_valid_stock_symbol (List.map text_of (take 3 cells))
  | inl _ => []
  end.

(** Code in [M] whose errors all satisfy [E]. *)
Definition raises_only (E : exn -> Prop) {A} (m : M A) : Prop :=
  forall st e, fst (m st) = inl e -> E e.

(** ** Passes *)

Section Passes.

Variable urlparse_hostname : str -> exn + option str.
Variable lower : str -> str.

(** The diff for one source run once per element of [ws], each time in
    the surroundings of that pass. *)
Fixpoint run_passes (ws : list World) (self : Monitor) (url : str) : Monitor :=
  match ws with
  | [] => self
  | w :: ws' =>
      run_passes ws'
        (snd (get_new_stocks_for_url urlparse_hostname lower w self url)) url
  end.

(** [d[k] = v] on a [dict], kept in insertion order: an existing key keeps
    its place. *)
Fixpoint dict_set {V} (k : str) (v : V) (d : list (str * V)) : list (str * V) :=
  match d with
  | [] => [(k, v)]
  | (k', v') :: d' =>
      if decide (k = k') then (k, v) :: d' else (k', v') :: dict_set k v d'
  end.

(** The loop of [perform_stock_screening_for_all_urls]; [ws i] is what
    the [i]-th turn meets.  [get_new_stocks_for_url] has no way to raise
    here, so the [except] branch of the loop is never entered. *)
Fixpoint screening_loop (ws : nat -> World) (i : nat) (urls : list str)
    (self : Monitor) (all_new_stocks : list (str * list str))
    : list (str * list str) * Monitor :=
  match urls with
  | [] => (all_new_stocks, self)
  | url :: rest =>
      let '(new_stocks, self') :=
        get_new_stocks_for_url urlparse_hostname lower (ws i) self url in
      screening_loop ws (S i) rest self' (dict_set url new_stocks all_new_stocks)
  end.

Definition perform_stock_screening_for_all_urls (ws : nat -> World)
    (self : Monitor) : list (str * list str) * Monitor :=
  screening_loop ws 0 (screener_urls self) self [].

End Passes.

(** The snapshot a sequence of extractions leaves behind: the last one
    that is not empty, or [last] when there is none. *)
Fixpoint last_nonempty (extractions : list (list str)) (last : option (gset str))
    : option (gset str) :=
  match extractions with
  | [] => last
  | current :: rest =>
      last_nonempty rest (if is_nil current then last else Some (list_to_set current))
  end.

(** ** The text of an alert *)

(** The closing lines of an alert, without the final newline of the
    template. *)
Definition alert_footer (now url : str) (domain : option str) : str :=
  globe ++ lit " <b>Source:</b> " ++ fmt_option domain ++ nl
  ++ clock ++ lit " <b>Detected:</b> " ++ now ++ nl
  ++ nl
  ++ lit "<a href=" ++ dq ++ url ++ dq ++ lit ">" ++ link
  ++ lit " View Screener</a>".

(** The alert for one identifier. *)
Definition alert_one (now url : str) (domain : option str) (stock : str) : str :=
  siren ++ lit " <b>New Stock Alert!</b>" ++ nl
  ++ nl
  ++ chart ++ lit " <b>Stock:</b> " ++ stock ++ nl
  ++ alert_footer now url domain.

(** The alert for a list of identifiers: the first ten as bullet lines
    and, beyond ten, a line counting the rest. *)
Definition alert_many (now url : str) (domain : option str)
    (new_stocks : list str) : str :=
  siren ++ lit " <b>" ++ of_Z (Z.of_nat (length new_stocks))
  ++ lit " New Stocks Alert!</b>" ++ nl
  ++ nl
  ++ chart ++ lit " <b>New Stocks:</b>" ++ nl
  ++ join nl (List.map (fun stock => bullet ++ lit " " ++ stock) (take 10 new_stocks))
  ++ (if (10 <? length new_stocks)%nat
      then nl ++ lit "... and " ++ of_Z (Z.of_nat (length new_stocks) - 10)
           ++ lit " more"
      else [])
  ++ nl
  ++ nl
  ++ alert_footer now url domain.

(** ** The configured URLs *)

Definition comma : N := 44.

(** [s.split(sep)] for a one-character separator. *)
Fixpoint split_on (sep : N) (s : str) : list str :=
  match s with
  | [] => [[]]
  | c :: s' =>
      if c =? sep then [] :: split_on sep s'
      else
        match split_on sep s' with
        | first :: rest => (c :: first) :: rest
        | [] => [[c]]
        end
  end.

(** The URL the program monitors when none is configured. *)
Definition default_screener_urls : list str :=
  [ lit "https://scanx.trade/stock-screener/"
    ++ lit "high-price-3-above-ltp-high-price-5-above-open-"
    ++ lit "volume-20d-vol-sma-x-2-nifty-500-246593" ].

(** [SCREENER_URLS] of the main block, from the value [env] of the
    environment variable of that name (empty when unset). *)
Definition SCREENER_URLS (env : str) : list str :=
  if negb (is_nil env) then
    List.map strip
      (List.filter (fun url => negb (is_nil (strip url))) (split_on comma env))
  else default_screener_urls.

Module FallbackExample.

Import Examples.

(** The primary request fails with a CORS error; the fallback request is
    answered with the document [soup]. *)
Definition blocked (soup : Tag) (now : str) : World :=
  {| requests_get := fun _ =>
       inl (Exception (lit "ClientException: blocked by CORS policy"));
     requests_get_fallback := fun _ => inr (mkResponse 200 (inr soup));
     now_strftime := now |}.

End FallbackExample.

(** ** The monitoring loop *)

Section Loop.

Variable urlparse_hostname : str -> exn + option str.
Variable lower : str -> str.

(** The loop of [test_all_urls]; [ws i] is what the [i]-th turn meets.
    [get_stocks_from_url] catches its errors, so the [except] branch is
    never entered. *)
Fixpoint test_loop (ws : nat -> World) (i : nat) (self : Monitor)
    (urls : list str) (results : list (str * bool)) : list (str * bool) :=
  match urls with
  | [] => results
  | url :: rest =>
      let stocks := get_stocks_from_url urlparse_hostname lower (ws i) self url in
      test_loop ws (S i) self rest (dict_set url (0 <? length stocks)%nat results)
  end.

Definition test_all_urls (ws : nat -> World) (self : Monitor) : list (str * bool) :=
  test_loop ws 0 self (screener_urls self) [].

Definition robot : str := [129302].          (* U+1F916 *)
Definition check_mark : str := [9989].       (* U+2705 *)
Definition cross_mark : str := [10060].      (* U+274C *)
Definition stopwatch : str := [9201; 65039]. (* U+23F1 U+FE0F *)
Definition magnifier : str := [128269].      (* U+1F50D *)
Definition clock_three : str := [128338].    (* U+1F552 *)

(** The text [run_monitor] sends before it starts monitoring; it is sent
    as the template stands, newlines at both ends included. *)
Definition startup_message (w : World) (self : Monitor)
    (working_urls failed_urls : list str) : str :=
  nl ++ robot ++ lit " <b>Integrated Stock Monitor Started!</b>" ++ nl
  ++ nl
  ++ check_mark ++ lit " <b>Working URLs:</b> "
  ++ of_Z (Z.of_nat (length working_urls)) ++ nl
  ++ cross_mark ++ lit " <b>Failed URLs:</b> "
  ++ of_Z (Z.of_nat (length failed_urls)) ++ nl
  ++ stopwatch ++ lit " <b>Check Interval:</b> "
  ++ of_Z (check_interval self / 60) ++ lit " minutes" ++ nl
  ++ magnifier ++ lit " <b>Method:</b> Advanced Web Scraping" ++ nl
  ++ clock_three ++ lit " <b>Started:</b> " ++ now_strftime w ++ nl
  ++ nl
  ++ lit "Ready to monitor for new stocks! " ++ chart ++ nl.

(** How [run_monitor] gets to its loop: it returns at once when no URL
    passes the test, and otherwise sends the startup message and runs the
    initial screening.  The texts handed to [send_telegram_message] are
    collected in [sent], in order; whether the channel delivers them has no
    influence on what the monitor does next. *)
Inductive Startup : Type :=
| Stopped
| Running (sent : list str) (self : Monitor).

Definition run_monitor_startup (ws_test ws_init : nat -> World) (w : World)
    (self : Monitor) : Startup :=
  let test_results := test_all_urls ws_test self in
  let working_urls :=
    List.map fst (List.filter (fun '(url, success) => success) test_results) in
  let failed_urls :=
    List.map fst (List.filter (fun '(url, success) => negb success) test_results) in
  if is_nil working_urls then Stopped
  else
    let sent := [startup_message w self working_urls failed_urls] in
    Running sent
      (snd (perform_stock_screening_for_all_urls urlparse_hostname lower
              ws_init self)).

(** The [for url, new_stocks in all_new_stocks.items()] loop of one turn
    of the monitoring loop; [clocks k] gives the time at which the [k]-th
    entry is formatted.  An error of the formatting leaves the loop through
    the handler of the turn, with what has been sent so far. *)
Fixpoint alert_loop (clocks : nat -> World) (k : nat) (self : Monitor)
    (entries : list (str * list str)) (sent : list str) : list str :=
  match entries with
  | [] => sent
  | (url, new_stocks) :: rest =>
      if is_nil new_stocks then alert_loop clocks (S k) self rest sent
      else
        match format_stock_message urlparse_hostname (clocks k) self url new_stocks with
        | inl e => sent
        | inr message => alert_loop clocks (S k) self rest (sent ++ [message])
        end
  end.

(** One turn of the [while True] loop of [run_monitor], the waiting left
    out: a screening pass, then an alert for every source with new
    identifiers. *)
Definition monitor_turn (ws clocks : nat -> World) (self : Monitor)
    : list str * Monitor :=
  let '(all_new_stocks, self') :=
    perform_stock_screening_for_all_urls urlparse_hostname lower ws self in
  (alert_loop clocks 0 self' all_new_stocks [], self').

End Loop.

(** ** Extraction through the proxy *)

Section Proxy.

Variable urlparse_hostname : str -> exn + option str.
Variable lower : str -> str.

(** [urllib.parse.quote] *)
Variable quote : str -> str.

(** The outcome of the request to the proxy, by the URL requested. *)
Variable requests_get_proxy : str -> exn + Response.

Definition get_stocks_with_proxy (url : str) : list str :=
  let proxy_url := lit "https://api.allorigins.win/raw?url=" ++ quote url in
  match requests_get_proxy proxy_url with
  | inl e => []
  | inr response =>
      if (status_code response =? 200)%Z then
        match soup_of response with
        | inl e => []
        | inr soup =>
            match hostname_lower urlparse_hostname lower url with
            | inl e => []
            | inr domain =>
                if contains (lit "scanx.trade") domain
                then _extract_from_scanx soup
                else _extract_from_tables soup
            end
        end
      else []
  end.

End Proxy.

(** ** Removing what is not a letter or a digit, as the specification
    words it *)

(** An ASCII letter or digit, by its code point. *)
Definition ascii_letter_or_digit (c : N) : Prop :=
  (65 <= c <= 90) \/ (97 <= c <= 122) \/ (48 <= c <= 57).

(** [strips_to s t]: [t] is [s] with every character that is not an ASCII
    letter or digit removed, and every letter and digit kept in place. *)
Inductive strips_to : str -> str -> Prop :=
| strips_nil : strips_to [] []
| strips_keep (c : N) (s t : str) :
    ascii_letter_or_digit c -> strips_to s t -> strips_to (c :: s) (c :: t)
| strips_drop (c : N) (s t : str) :
    ~ ascii_letter_or_digit c -> strips_to s t -> strips_to (c :: s) t.

(** ** A source without a host name behind a failing primary request *)

Module HostlessExample.

(** A URL with a no-break space in front: it parses to no host name. *)
Definition padded_url : str := 160 :: lit "https://example.com/screen".

End HostlessExample.

(** * Properties *)

(** ** The validator on the examples of the specification *)

Example valid_AAPL : _is_valid_stock_symbol (lit "AAPL") = true.
Proof. reflexivity. Qed.

Example valid_name : _is_valid_stock_symbol (lit "Bajaj Holdings & Investments") = true.
Proof. reflexivity. Qed.

Example invalid_long : _is_valid_stock_symbol (lit "TOOLONGSTRING123456") = false.
Proof. reflexivity. Qed.

(** ** Facts on strings *)

Lemma lstrip_length (s : str) : (length (lstrip s) <= length s)%nat.
Proof.
  induction s as [|c s IH]; simpl; [lia|].
  destruct (isspace c); simpl; lia.
Qed.

Lemma is_nil_true {A} (l : list A) : is_nil l = true <-> l = [].
Proof. destruct l; simpl; split; congruence. Qed.

Lemma is_nil_false {A} (l : list A) : is_nil l = false <-> l <> [].
Proof. destruct l; simpl; split; congruence. Qed.

Lemma keep_alnum_alnum (s : str) :
  Forall (fun c => is_alnum c = true) (keep_alnum s).
Proof.
  unfold keep_alnum. apply List.Forall_forall. intros c Hc.
  by apply List.filter_In in Hc as [_ Hc].
Qed.

(** Trimming on the right, one character at a time. *)
Lemma lstrip_snoc (a : str) (c : N) :
  lstrip (a ++ [c]) =
  match lstrip a with
  | [] => if isspace c then [] else [c]
  | r => r ++ [c]
  end.
Proof.
  induction a as [|x a IH]; simpl; [done|].
  destruct (isspace x); [done|reflexivity].
Qed.

Lemma rstrip_cons (c : N) (s : str) :
  rstrip (c :: s) =
  match rstrip s with
  | [] => if isspace c then [] else [c]
  | _ => c :: rstrip s
  end.
Proof.
  unfold rstrip. simpl rev. rewrite lstrip_snoc.
  destruct (lstrip (rev s)) as [|x r] eqn:Hr.
  - simpl. by destruct (isspace c).
  - rewrite rev_app_distr. cbn [rev app].
    destruct (rev r ++ [x]) eqn:Hrev; [|done].
    by apply app_eq_nil in Hrev as [_ ?].
Qed.

Lemma lstrip_fix (s : str) : lstrip (lstrip s) = lstrip s.
Proof.
  induction s as [|c s IH]; simpl; [done|].
  destruct (isspace c) eqn:Hc; [done|]. simpl. by rewrite Hc.
Qed.

Lemma rstrip_fix (s : str) : rstrip (rstrip s) = rstrip s.
Proof. unfold rstrip. by rewrite rev_involutive, lstrip_fix. Qed.

Lemma lstrip_rstrip (u : str) : lstrip u = u -> lstrip (rstrip u) = rstrip u.
Proof.
  destruct u as [|c u]; [done|]. intros Hu.
  assert (isspace c = false) as Hc.
  { destruct (isspace c) eqn:Hc; [|done]. simpl in Hu. rewrite Hc in Hu.
    pose proof (lstrip_length u) as Hl. rewrite Hu in Hl. simpl in Hl. lia. }
  rewrite rstrip_cons. rewrite Hc.
  destruct (rstrip u); simpl; by rewrite Hc.
Qed.

Lemma strip_fix (s : str) : strip (strip s) = strip s.
Proof.
  unfold strip. rewrite (lstrip_rstrip (lstrip s)) by apply lstrip_fix.
  apply rstrip_fix.
Qed.

(** Collapsing leaves single spaces only, and trimming keeps that. *)
Lemma collapse_collapsed (t : str) :
  forall b, collapsed_from b (collapse_from b t) = true.
Proof.
  induction t as [|c t IH]; intros b; simpl; [done|].
  destruct (isspace c) eqn:Hc.
  - destruct b; [apply IH|]. simpl. by rewrite IH.
  - simpl. by rewrite Hc.
Qed.

Lemma collapsed_fix (s : str) :
  forall b, collapsed_from b s = true -> collapse_from b s = s.
Proof.
  induction s as [|c s IH]; intros b; simpl; [done|].
  destruct (isspace c).
  - rewrite !andb_true_iff, N.eqb_eq, negb_true_iff.
    intros [[-> ->] Hs]. by rewrite (IH true Hs).
  - intros Hs. by rewrite (IH false Hs).
Qed.

Lemma collapsed_lstrip (s : str) :
  forall b, collapsed_from b s = true -> collapsed_from false (lstrip s) = true.
Proof.
  induction s as [|c s IH]; intros b; simpl; [done|].
  destruct (isspace c) eqn:Hc.
  - rewrite !andb_true_iff. intros [_ Hs]. by apply (IH true).
  - intros Hs. simpl. by rewrite Hc.
Qed.

Lemma collapsed_rstrip (s : str) :
  forall b, collapsed_from b s = true -> collapsed_from b (rstrip s) = true.
Proof.
  induction s as [|c s IH]; intros b Hs; [done|].
  rewrite rstrip_cons. simpl in Hs.
  destruct (rstrip s) as [|x r] eqn:Hr.
  - destruct (isspace c) eqn:Hc; [done|]. simpl. by rewrite Hc.
  - simpl collapsed_from at 1. destruct (isspace c).
    + apply andb_true_iff in Hs as [Hs1 Hs2]. rewrite Hs1. cbn [andb].
      by apply (IH true).
    + by apply (IH false).
Qed.

Lemma normalize_fix (t : str) : normalize (normalize t) = normalize t.
Proof.
  unfold normalize at 1.
  assert (collapse_ws (normalize t) = normalize t) as ->.
  { apply collapsed_fix. unfold normalize, strip.
    apply collapsed_rstrip, (collapsed_lstrip _ false), collapse_collapsed. }
  apply strip_fix.
Qed.

Lemma normalized_trimmed (x : str) : normalize x = x -> strip x = x.
Proof. intros Hx. rewrite <- Hx. apply strip_fix. Qed.

(** ** The regular-expression fragment: what a match means *)

Module ReFacts.

Lemma match_rep_spec (a : atom) (k : str -> nat -> bool) :
  forall hi lo s pos,
    match_rep a k lo hi s pos = true <->
    exists pre rest,
      s = pre ++ rest
      /\ Forall (fun c => atom_matches a c = true) pre
      /\ (lo <= length pre <= hi)%nat
      /\ k rest (pos + length pre)%nat = true.
Proof.
  induction hi as [|hi IH]; intros lo s pos; simpl.
  - destruct lo as [|lo].
    + split.
      * intros Hk. exists [], s. simpl. rewrite Nat.add_0_r.
        repeat split; auto.
      * intros (pre & rest & -> & _ & Hl & Hk).
        destruct pre; simpl in *; [|lia]. by rewrite Nat.add_0_r in Hk.
    + split; [done|]. intros (pre & rest & _ & _ & Hl & _). lia.
  - rewrite orb_true_iff. split.
    + intros [H|H].
      * destruct s as [|c s']; [done|].
        apply andb_true_iff in H as [Hc H].
        apply IH in H as (pre & rest & -> & HF & Hl & Hk).
        exists (c :: pre), rest. simpl.
        repeat split; [by constructor|lia|lia|].
        by replace (pos + S (length pre))%nat with (S pos + length pre)%nat by lia.
      * destruct lo; [|done]. exists [], s. simpl. rewrite Nat.add_0_r.
        repeat split; auto; lia.
    + intros (pre & rest & -> & HF & Hl & Hk). destruct pre as [|c pre].
      * right. simpl in *. destruct lo; [|lia]. by rewrite Nat.add_0_r in Hk.
      * left. simpl in *. inversion HF; subst.
        apply andb_true_iff. split; [done|]. apply IH.
        exists pre, rest. repeat split; auto; try lia.
        by replace (S pos + length pre)%nat with (pos + S (length pre))%nat by lia.
Qed.

Lemma match_pieces_spec (r : regex) :
  forall s pos, match_pieces r s pos = true <-> accepts r s pos.
Proof.
  induction r as [|p r IH]; intros s pos; simpl; [done|].
  destruct p as [| |a lo hi].
  - rewrite andb_true_iff, Nat.eqb_eq, IH. done.
  - rewrite andb_true_iff, IH.
    assert (match s with [] => true | [c] => c =? newline | _ => false end = true
            <-> (s = [] \/ s = [newline])) as ->; [|done].
    destruct s as [|c [|d s]]; simpl.
    + split; auto.
    + rewrite N.eqb_eq. split; [intros ->; auto|].
      intros [?|?]; congruence.
    + split; [done|]. intros [?|?]; congruence.
  - rewrite match_rep_spec. split.
    + intros (pre & rest & ? & ? & ? & Hk). apply IH in Hk. eauto 10.
    + intros (pre & rest & ? & ? & ? & Hk). apply IH in Hk. eauto 10.
Qed.

End ReFacts.

(** ** The patterns of the validator and the shapes of the specification *)

Lemma eol_rest (pre rest : str) :
  ~ In newline (pre ++ rest) -> rest = [] \/ rest = [newline] -> rest = [].
Proof.
  intros Hnl [->| ->]; [done|]. exfalso. apply Hnl.
  apply in_or_app. right. by left.
Qed.

Lemma alnum_no_newline (s : str) :
  Forall (fun c => is_alnum c = true) s -> ~ In newline s.
Proof.
  intros HF Hin. rewrite List.Forall_forall in HF.
  apply HF in Hin. vm_compute in Hin. discriminate.
Qed.

Lemma one_dot (pre : str) :
  Forall (fun c => atom_matches (Char 46) c = true) pre ->
  (1 <= length pre <= 1)%nat -> pre = [dot].
Proof.
  intros HF Hl. destruct pre as [|c [|d pre]]; simpl in *; try lia.
  inversion HF as [|? ? Hc _]; subst. apply N.eqb_eq in Hc. by subst.
Qed.

Lemma patterns_shape (s : str) :
  ~ In newline s ->
  existsb (fun pattern => re_match pattern s) patterns = true <-> symbol_shape s.
Proof.
  intros Hnl. unfold patterns, symbol_shape. cbn [existsb]. unfold re_match.
  rewrite !orb_true_iff, !ReFacts.match_pieces_spec. cbn [accepts].
  unfold uppers, digits. split.
  - intros [H|[H|[H|[H|[H|H]]]]]; [| | | | |done].
    + destruct H as (_ & pre & rest & -> & HF & Hl & He & _).
      apply (eol_rest pre) in He as ->; [|done]. rewrite app_nil_r. by left.
    + destruct H as (_ & a & r1 & -> & Ha & Hla & p & r2 & -> & Hp & Hlp
                     & b & r3 & -> & Hb & Hlb & He & _).
      apply one_dot in Hp as ->; [|done].
      assert (r3 = []) as ->.
      { apply (eol_rest (a ++ [dot] ++ b)); [|done]. by rewrite <- !app_assoc. }
      rewrite app_nil_r. right; left. exists a, b. done.
    + destruct H as (_ & a & r1 & -> & Ha & Hla & d & r2 & -> & Hd & Hld & He & _).
      assert (r2 = []) as ->.
      { apply (eol_rest (a ++ d)); [|done]. by rewrite <- !app_assoc. }
      rewrite app_nil_r. right; right; left. exists a, d. done.
    + destruct H as (_ & pre & rest & -> & HF & Hl & He & _).
      apply (eol_rest pre) in He as ->; [|done]. rewrite app_nil_r.
      by right; right; right; left.
    + destruct H as (_ & a & r1 & -> & Ha & Hla & d & r2 & -> & Hd & Hld & He & _).
      assert (r2 = []) as ->.
      { apply (eol_rest (a ++ d)); [|done]. by rewrite <- !app_assoc. }
      rewrite app_nil_r. right; right; right; right. exists a, d. done.
  - intros [H|[H|[H|[H|H]]]].
    + left. destruct H as [HF Hl]. split; [done|].
      exists s, []. rewrite app_nil_r. auto 10.
    + right; left. destruct H as (a & b & -> & [Ha Hla] & [Hb Hlb]).
      split; [done|]. exists a, ([dot] ++ b). repeat split; auto; try lia.
      exists [dot], b. repeat split; auto.
      exists b, []. rewrite app_nil_r. repeat split; auto; lia.
    + right; right; left. destruct H as (a & d & -> & [Ha Hla] & [Hd Hld]).
      split; [done|]. exists a, d. repeat split; auto; try lia.
      exists d, []. rewrite app_nil_r. repeat split; auto; lia.
    + right; right; right; left. destruct H as [HF Hl]. split; [done|].
      exists s, []. rewrite app_nil_r. auto 10.
    + right; right; right; right; left.
      destruct H as (a & d & -> & [Ha Hla] & [Hd Hld]).
      split; [done|]. exists a, d. repeat split; auto; try lia.
      exists d, []. rewrite app_nil_r. repeat split; auto; lia.
Qed.

(** ** The validator *)

(** C3, as amended.  For every input whose trimmed form contains a space,
    the validator accepts exactly when the raw, untrimmed input has at most
    50 characters and the trimmed form has between 3 and 50: the guard on
    over-long input looks at the length before trimming. *)
Theorem name_candidate_valid (text : str) :
  has_char space (strip text) = true ->
  _is_valid_stock_symbol text = true
  <-> (length text <= 50 /\ 3 <= length (strip text) <= 50)%nat.
Proof.
  intros Hsp. unfold _is_valid_stock_symbol.
  assert (is_nil (strip text) = false) as Hclean.
  { destruct (strip text); [discriminate Hsp|done]. }
  assert (is_nil text = false) as Htext.
  { destruct text; [discriminate Hsp|done]. }
  rewrite Htext, Hclean, Hsp.
  destruct (Nat.ltb_spec 50 (length text)) as [Hlong|Hshort]; cbn [orb].
  - split; [done|lia].
  - rewrite andb_true_iff, !Nat.leb_le. split; lia.
Qed.

Lemma name_candidate_valid_witness :
  has_char space (strip (lit "Bajaj Holdings & Investments")) = true
  /\ (_is_valid_stock_symbol (lit "Bajaj Holdings & Investments") = true
      <-> (length (lit "Bajaj Holdings & Investments") <= 50
           /\ 3 <= length (strip (lit "Bajaj Holdings & Investments")) <= 50)%nat).
Proof.
  split; [reflexivity|].
  apply (name_candidate_valid (lit "Bajaj Holdings & Investments")).
  reflexivity.
Defined.

(** C3 as stated fails: a name of three characters followed by 48 spaces
    has a trimmed length of 3, yet its raw length of 51 makes the validator
    reject it. *)
Lemma name_candidate_trimmed_length_refuted :
  ~ (forall text : str,
       has_char space (strip text) = true ->
       _is_valid_stock_symbol text = true
       <-> (3 <= length (strip text) <= 50)%nat).
Proof.
  intros H.
  destruct (H (lit "A B" ++ repeat space 48) eq_refl) as [_ Hback].
  assert (_is_valid_stock_symbol (lit "A B" ++ repeat space 48) = false)
    as Hrej by reflexivity.
  rewrite Hback in Hrej; [discriminate|].
  vm_compute. lia.
Qed.

Lemma is_alnum_spec (c : N) : is_alnum c = true <-> ascii_letter_or_digit c.
Proof.
  unfold is_alnum, is_upper, is_lower, is_digit, ascii_letter_or_digit.
  rewrite !orb_true_iff, !andb_true_iff, !N.leb_le. tauto.
Qed.

(** What the code keeps of a text is the text with exactly the characters
    that are no ASCII letter or digit removed, and nothing else has that
    property. *)
Lemma keep_alnum_strips (s : str) : strips_to s (keep_alnum s).
Proof.
  induction s as [|c s IH]; [constructor|]. unfold keep_alnum in *. simpl.
  destruct (is_alnum c) eqn:Hc.
  - apply strips_keep; [by apply is_alnum_spec|done].
  - apply strips_drop; [|done]. rewrite <- is_alnum_spec. congruence.
Qed.

Lemma strips_to_keep_alnum (s t : str) : strips_to s t -> t = keep_alnum s.
Proof.
  induction 1 as [|c s t Hc _ IH|c s t Hc _ IH]; [done| |].
  - apply is_alnum_spec in Hc. unfold keep_alnum in *. simpl. by rewrite Hc, IH.
  - rewrite <- is_alnum_spec in Hc. apply not_true_is_false in Hc.
    unfold keep_alnum in *. simpl. by rewrite Hc.
Qed.

(** C4.  For every input of at most 50 characters whose trimmed form is
    non-empty and has no space, there is exactly one text obtained from
    the trimmed form by removing every character that is not an ASCII
    letter or digit; the validator rejects when that text is empty and
    otherwise accepts exactly when it has one of the five shapes.  AAPL and
    MSFT are accepted and TOOLONGSTRING123456 is rejected. *)
Theorem symbol_candidate_valid :
  (forall text : str,
     (length text <= 50)%nat ->
     strip text <> [] ->
     has_char space (strip text) = false ->
     exists stripped : str,
       strips_to (strip text) stripped
       /\ (forall other, strips_to (strip text) other -> other = stripped)
       /\ (_is_valid_stock_symbol text = true
           <-> stripped <> [] /\ symbol_shape stripped))
  /\ _is_valid_stock_symbol (lit "AAPL") = true
  /\ _is_valid_stock_symbol (lit "MSFT") = true
  /\ _is_valid_stock_symbol (lit "TOOLONGSTRING123456") = false.
Proof.
  split; [|by vm_compute].
  intros text Hlen Hclean Hsp. exists (keep_alnum (strip text)).
  split; [apply keep_alnum_strips|]. split; [apply strips_to_keep_alnum|].
  unfold _is_valid_stock_symbol.
  assert (is_nil text = false) as ->.
  { destruct text; [by destruct Hclean|done]. }
  assert ((50 <? length text)%nat = false) as -> by (apply Nat.ltb_ge; lia).
  apply is_nil_false in Hclean. rewrite Hclean, Hsp. cbn [orb].
  destruct (is_nil (keep_alnum (strip text))) eqn:Hsym.
  - apply is_nil_true in Hsym. split; [done|]. by intros [? _].
  - apply is_nil_false in Hsym.
    rewrite patterns_shape by (apply alnum_no_newline, keep_alnum_alnum).
    split; [by split|by intros [_ ?]].
Qed.

(** The witness has a dollar sign to remove: what is left is NIFTY50, and
    the input is accepted. *)
Lemma symbol_candidate_valid_witness :
  (length (lit " $NIFTY50 ") <= 50)%nat
  /\ strip (lit " $NIFTY50 ") <> []
  /\ has_char space (strip (lit " $NIFTY50 ")) = false
  /\ strips_to (strip (lit " $NIFTY50 ")) (lit "NIFTY50")
  /\ _is_valid_stock_symbol (lit " $NIFTY50 ") = true
  /\ exists stripped : str,
       strips_to (strip (lit " $NIFTY50 ")) stripped
       /\ (forall other, strips_to (strip (lit " $NIFTY50 ")) other
                         -> other = stripped)
       /\ (_is_valid_stock_symbol (lit " $NIFTY50 ") = true
           <-> stripped <> [] /\ symbol_shape stripped).
Proof.
  assert ((length (lit " $NIFTY50 ") <= 50)%nat) as H1 by (vm_compute; lia).
  assert (strip (lit " $NIFTY50 ") <> []) as H2 by (vm_compute; discriminate).
  assert (has_char space (strip (lit " $NIFTY50 ")) = false) as H3 by reflexivity.
  split; [exact H1|]. split; [exact H2|]. split; [exact H3|].
  split.
  { change (strip (lit " $NIFTY50 ")) with (36 :: lit "NIFTY50").
    apply strips_drop; [vm_compute; intros [[? ?]|[[? ?]|[? ?]]]; congruence|].
    repeat (apply strips_keep;
            [vm_compute;
             first [ left; split; discriminate
                   | right; right; split; discriminate ]|]).
    apply strips_nil. }
  split; [reflexivity|].
  exact (proj1 symbol_candidate_valid (lit " $NIFTY50 ") H1 H2 H3).
Defined.

(** C8.  The validator is a total function to the booleans: every input has
    a verdict, the empty string is rejected and so is every string of 51
    characters. *)
Theorem validator_total :
  (forall text : str, exists b : bool, _is_valid_stock_symbol text = b)
  /\ _is_valid_stock_symbol [] = false
  /\ (forall text : str, length text = 51%nat -> _is_valid_stock_symbol text = false).
Proof.
  split; [by eauto|]. split; [reflexivity|].
  intros text Hlen. unfold _is_valid_stock_symbol.
  assert ((50 <? length text)%nat = true) as -> by (apply Nat.ltb_lt; lia).
  by rewrite orb_true_r.
Qed.

Lemma validator_total_witness :
  length (repeat 65 51) = 51%nat
  /\ _is_valid_stock_symbol (repeat 65 51) = false.
Proof.
  split; [reflexivity|].
  apply (proj2 (proj2 validator_total) (repeat 65 51)). reflexivity.
Defined.

(** ** Differ and snapshot store *)

Section Differ.

Variable urlparse_hostname : str -> exn + option str.
Variable lower : str -> str.

Lemma diff_of_empty_extraction (w : World) (self : Monitor) (url : str) :
  get_stocks_from_url urlparse_hostname lower w self url = [] ->
  get_new_stocks_for_url urlparse_hostname lower w self url = ([], self).
Proof.
  intros Hcur. unfold get_new_stocks_for_url. rewrite Hcur. simpl.
  rewrite decide_True by done. rewrite empty_difference_L.
  by rewrite elements_empty.
Qed.

(** C1.  When the extraction for a source returns no identifier, the diff
    returns no new identifier and leaves the monitor, and so the stored
    snapshot of that source, as it was. *)
Theorem empty_extraction_keeps_snapshot (w : World) (self : Monitor) (url : str) :
  get_stocks_from_url urlparse_hostname lower w self url = [] ->
  get_new_stocks_for_url urlparse_hostname lower w self url = ([], self)
  /\ url_stocks (snd (get_new_stocks_for_url urlparse_hostname lower w self url)) !! url
     = url_stocks self !! url.
Proof.
  intros Hcur. by rewrite (diff_of_empty_extraction w self url Hcur).
Qed.

(** C2.  When the extraction returns at least one identifier, the diff
    reports exactly the identifiers of the current set that are not in the
    previous snapshot, each once, and the store afterwards holds the
    current set for that source in place of the previous one; nothing else
    of the monitor changes. *)
Theorem nonempty_extraction_replaces_snapshot
    (w : World) (self : Monitor) (url : str) :
  get_stocks_from_url urlparse_hostname lower w self url <> [] ->
  let current : gset str :=
    list_to_set (get_stocks_from_url urlparse_hostname lower w self url) in
  let previous : gset str := default ∅ (url_stocks self !! url) in
  let result := get_new_stocks_for_url urlparse_hostname lower w self url in
  (list_to_set (fst result) : gset str) = current ∖ previous
  /\ NoDup (fst result)
  /\ (forall x, x ∈ fst result <-> x ∈ current /\ x ∉ previous)
  /\ url_stocks (snd result) = <[url := current]> (url_stocks self)
  /\ url_stocks (snd result) !! url = Some current
  /\ screener_urls (snd result) = screener_urls self
  /\ default_selectors (snd result) = default_selectors self.
Proof.
  intros Hcur current previous result.
  assert (current <> ∅) as Hne.
  { subst current. destruct (get_stocks_from_url _ _ _ _ _) as [|x l]; [done|].
    simpl. set_solver. }
  subst result. unfold get_new_stocks_for_url.
  fold current. fold previous. rewrite decide_False by done. simpl.
  split; [apply list_to_set_elements_L|].
  split; [apply NoDup_elements|].
  split; [intros x; rewrite elem_of_elements; set_solver|].
  split; [done|]. split; [apply lookup_insert_eq|]. done.
Qed.

End Differ.

Import Examples.

Lemma empty_extraction_keeps_snapshot_witness :
  let self := with_store {[ example_url := {[ lit "AAPL"; lit "MSFT" ]} ]} in
  get_stocks_from_url hostname_of ascii_lower (offline morning) self example_url = []
  /\ get_new_stocks_for_url hostname_of ascii_lower (offline morning) self example_url
     = ([], self)
  /\ url_stocks (snd (get_new_stocks_for_url hostname_of ascii_lower
                        (offline morning) self example_url)) !! example_url
     = url_stocks self !! example_url.
Proof.
  intros self. split; [reflexivity|].
  apply (empty_extraction_keeps_snapshot hostname_of ascii_lower
           (offline morning) self example_url).
  reflexivity.
Defined.

(** The example of the specification: the store has AAPL, the page lists
    AAPL and TSLA; TSLA is new. *)
Example diff_reports_TSLA :
  fst (get_new_stocks_for_url hostname_of ascii_lower
         (serving (page (lit ".stock-symbol") [lit "AAPL"; lit "TSLA"]) morning)
         (with_store {[ example_url := {[ lit "AAPL" ]} ]}) example_url)
  = [lit "TSLA"].
Proof. vm_compute. reflexivity. Qed.

Lemma nonempty_extraction_replaces_snapshot_witness :
  let w := serving (page (lit ".stock-symbol") [lit "AAPL"; lit "TSLA"]) morning in
  let self := with_store {[ example_url := {[ lit "AAPL" ]} ]} in
  get_stocks_from_url hostname_of ascii_lower w self example_url <> []
  /\ url_stocks
       (snd (get_new_stocks_for_url hostname_of ascii_lower w self example_url))
       !! example_url
     = Some (list_to_set
               (get_stocks_from_url hostname_of ascii_lower w self example_url)).
Proof.
  intros w self.
  assert (get_stocks_from_url hostname_of ascii_lower w self example_url <> [])
    as Hcur by (vm_compute; discriminate).
  split; [exact Hcur|].
  exact (proj1 (proj2 (proj2 (proj2 (proj2
    (nonempty_extraction_replaces_snapshot hostname_of ascii_lower
       w self example_url Hcur)))))).
Defined.

(** ** The loops of the extractor *)

Lemma for_each_validate (elements : list Tag) (st : list str) :
  for_each elements (fun element =>
    let text := strip (get_text element) in
    when (_is_valid_stock_symbol text) (append text)) st
  = (inr tt,
     st ++ List.filter _is_valid_stock_symbol
             (List.map (fun element => strip (get_text element)) elements)).
Proof.
  revert st. induction elements as [|element elements IH]; intros st.
  - simpl. by rewrite app_nil_r.
  - cbn [for_each List.map List.filter]. unfold mbind, M_bind.
    destruct (_is_valid_stock_symbol (strip (get_text element))); simpl.
    + rewrite IH. by rewrite <- app_assoc.
    + by rewrite IH.
Qed.

(** One turn of the profile loop: a query that raises leaves [stocks] as
    it is and the loop goes on; otherwise the accepted candidates are
    appended and the loop ends unless [stocks] is still empty. *)
Lemma profile_loop_turn (soup : Tag) (selector : str) (rest : list str)
    (st : list str) :
  profile_loop soup (selector :: rest) st =
  match select soup selector with
  | inl _ => profile_loop soup rest st
  | inr _ =>
      if is_nil (st ++ accepted soup selector)
      then profile_loop soup rest (st ++ accepted soup selector)
      else (inr tt, st ++ accepted soup selector)
  end.
Proof.
  cbn [profile_loop]. unfold mbind, M_bind, try_except, lift, accepted.
  destruct (select soup selector) as [e|elements]; [done|].
  rewrite for_each_validate. unfold get_stocks, mret, M_ret.
  by destruct (is_nil _).
Qed.

Lemma profile_loop_short_circuit (soup : Tag) (pre : list str) (s : str)
    (post : list str) :
  (forall p, In p pre -> accepted soup p = []) ->
  accepted soup s <> [] ->
  profile_loop soup (pre ++ s :: post) [] = (inr tt, accepted soup s).
Proof.
  intros Hpre Hs. induction pre as [|p pre IH]; simpl app.
  - rewrite profile_loop_turn. unfold accepted in *.
    destruct (select soup s) as [e|elements]; [done|]. simpl app.
    by apply is_nil_false in Hs as ->.
  - rewrite profile_loop_turn. rewrite (Hpre p) by (by left). simpl.
    assert (profile_loop soup (pre ++ s :: post) [] = (inr tt, accepted soup s))
      as -> by (apply IH; intros q Hq; apply Hpre; by right).
    by destruct (select soup p).
Qed.

Lemma elem_of_dedup (l : list str) (x : str) : x ∈ dedup l <-> x ∈ l.
Proof. unfold dedup. by rewrite elem_of_elements, elem_of_list_to_set. Qed.

Lemma NoDup_dedup (l : list str) : NoDup (dedup l).
Proof. unfold dedup. apply (NoDup_elements (C := gset str)). Qed.

(** ** The extraction cascade *)

Section Extractor.

Variable urlparse_hostname : str -> exn + option str.
Variable lower : str -> str.

(** C5.  Once the page is fetched and the site-special stage has returned
    nothing, the profile stage stops at the first query strategy with an
    accepted candidate: whatever strategies follow it in the resolved list,
    the extraction returns exactly the accepted candidates of that
    strategy, each once. *)
Theorem profile_stage_short_circuits
    (w : World) (self : Monitor) (url : str) (response : Response)
    (soup : Tag) (domain : str) (pre : list str) (s : str) (post : list str) :
  requests_get w url = inr response ->
  status_code response = 200%Z ->
  soup_of response = inr soup ->
  hostname_lower urlparse_hostname lower url = inr domain ->
  contains (lit "scanx.trade") domain = false \/ _extract_from_scanx soup = [] ->
  _get_default_selectors urlparse_hostname lower self url = inr (pre ++ s :: post) ->
  (forall p, In p pre -> accepted soup p = []) ->
  accepted soup s <> [] ->
  get_stocks_from_url urlparse_hostname lower w self url
  = dedup (accepted soup s)
  /\ NoDup (get_stocks_from_url urlparse_hostname lower w self url)
  /\ (forall x,
        x ∈ get_stocks_from_url urlparse_hostname lower w self url
        <-> x ∈ accepted soup s).
Proof.
  intros Hget Hstatus Hsoup Hdom Hscanx Hsel Hpre Hs.
  assert (get_stocks_from_url urlparse_hostname lower w self url
          = dedup (accepted soup s)) as Heq.
  { assert (_extract_from_scanx soup = []
            \/ contains (lit "scanx.trade") domain = false) as Hstage by tauto.
    unfold get_stocks_from_url, get_stocks_try.
    unfold mbind, M_bind, lift. rewrite Hget, Hstatus.
    change (200 =? 200)%Z with true. cbv beta iota.
    rewrite Hsoup, Hdom.
    destruct (contains (lit "scanx.trade") domain) eqn:Hc.
    - destruct Hstage as [Hnone|?]; [|done].
      unfold extend, get_stocks. rewrite Hnone. cbn [app is_nil fst snd].
      unfold mret at 1, M_ret at 1. cbv beta iota.
      rewrite Hsel, (profile_loop_short_circuit soup pre s post Hpre Hs).
      unfold when. apply is_nil_false in Hs. by rewrite Hs.
    - unfold mret at 1, M_ret at 1. cbv beta iota.
      rewrite Hsel, (profile_loop_short_circuit soup pre s post Hpre Hs).
      unfold get_stocks, when. apply is_nil_false in Hs. by rewrite Hs. }
  rewrite Heq. split; [done|]. split; [apply NoDup_dedup|].
  intros x. apply elem_of_dedup.
Qed.

End Extractor.

Lemma profile_stage_short_circuits_witness :
  let soup := page_of [ (lit ".stock-symbol", [lit "n/a"; lit "-"]);
                        (lit ".ticker", [lit " AAPL "; lit "MSFT"; lit "AAPL"]);
                        (lit ".symbol", [lit "TSLA"]) ] in
  accepted soup (lit ".ticker") <> []
  /\ accepted soup (lit ".symbol") <> []
  /\ forall x,
       x ∈ get_stocks_from_url hostname_of ascii_lower (serving soup morning)
             (init [example_url] 300) example_url
       <-> x ∈ accepted soup (lit ".ticker").
Proof.
  intros soup.
  split; [vm_compute; discriminate|]. split; [vm_compute; discriminate|].
  apply (profile_stage_short_circuits hostname_of ascii_lower
           (serving soup morning) (init [example_url] 300) example_url
           (mkResponse 200 (inr soup)) soup (lit "example.com")
           [lit ".stock-symbol"] (lit ".ticker")
           [lit ".symbol"; lit "[data-symbol]"; lit ".stock"; lit ".ticker-symbol"]).
  - reflexivity.
  - reflexivity.
  - reflexivity.
  - reflexivity.
  - left. reflexivity.
  - reflexivity.
  - intros p [<-|[]]. reflexivity.
  - vm_compute. discriminate.
Defined.

Section Hostless.

Variable urlparse_hostname : str -> exn + option str.
Variable lower : str -> str.

(** C10, as amended.  For a source whose URL parses to no host name the
    extraction never raises, and what it returns depends on the request
    alone.  Unless fetching or parsing the page raises an error whose text
    has CORS or ClientException in it, the result is the empty list and the
    diff leaves the monitor as it was; in particular, when the page is
    fetched and parsed, lowercasing the absent host name raises inside the
    [try] block and the handler turns that into the empty result.  When
    fetching or parsing does raise such an error, the result is that of the
    fallback request.  The selector lookup raises on such a URL. *)
Theorem hostless_source_extraction (w : World) (self : Monitor) (url : str) :
  urlparse_hostname url = inr None ->
  ((forall e, fetch_error w url = Some e -> mentions_cors e = false) ->
   get_stocks_from_url urlparse_hostname lower w self url = []
   /\ get_new_stocks_for_url urlparse_hostname lower w self url = ([], self))
  /\ (forall response soup,
        requests_get w url = inr response ->
        status_code response = 200%Z ->
        soup_of response = inr soup ->
        fst (get_stocks_try urlparse_hostname lower w self url [])
        = inl AttributeError_lower
        /\ get_stocks_from_url urlparse_hostname lower w self url = []
        /\ get_new_stocks_for_url urlparse_hostname lower w self url = ([], self))
  /\ (forall e,
        fetch_error w url = Some e ->
        mentions_cors e = true ->
        get_stocks_from_url urlparse_hostname lower w self url
        = _get_stocks_with_fallback w url)
  /\ _get_default_selectors urlparse_hostname lower self url
     = inl AttributeError_lower.
Proof.
  intros Hhost.
  assert (forall response soup,
            requests_get w url = inr response ->
            status_code response = 200%Z ->
            soup_of response = inr soup ->
            fst (get_stocks_try urlparse_hostname lower w self url [])
            = inl AttributeError_lower) as Hraise.
  { intros response soup Hget Hstatus Hsoup.
    unfold get_stocks_try, mbind, M_bind, lift, hostname_lower.
    rewrite Hget, Hstatus. change (200 =? 200)%Z with true. cbv beta iota.
    by rewrite Hsoup, Hhost. }
  assert (forall response soup,
            requests_get w url = inr response ->
            status_code response = 200%Z ->
            soup_of response = inr soup ->
            get_stocks_from_url urlparse_hostname lower w self url = [])
    as Hswallowed.
  { intros response soup Hget Hstatus Hsoup. unfold get_stocks_from_url.
    by rewrite (Hraise response soup Hget Hstatus Hsoup). }
  split; [|split; [|split]].
  - intros Hfetch.
    assert (get_stocks_from_url urlparse_hostname lower w self url = [])
      as Hnone; [|split; [done|by apply diff_of_empty_extraction]].
    destruct (requests_get w url) as [e|response] eqn:Hget.
    + unfold get_stocks_from_url, get_stocks_try, mbind, M_bind, lift.
      rewrite Hget. cbn [fst].
      assert (mentions_cors e = false) as Hm
        by (apply Hfetch; unfold fetch_error; by rewrite Hget).
      unfold mentions_cors in Hm. by rewrite Hm.
    + destruct (status_code response =? 200)%Z eqn:Hstatus.
      * destruct (soup_of response) as [e|soup] eqn:Hsoup.
        -- unfold get_stocks_from_url, get_stocks_try, mbind, M_bind, lift.
           rewrite Hget, Hstatus, Hsoup. cbn [fst].
           assert (mentions_cors e = false) as Hm
             by (apply Hfetch; unfold fetch_error;
                 by rewrite Hget, Hstatus, Hsoup).
           unfold mentions_cors in Hm. by rewrite Hm.
        -- apply Z.eqb_eq in Hstatus.
           by apply (Hswallowed response soup).
      * unfold get_stocks_from_url, get_stocks_try, mbind, M_bind, lift.
        by rewrite Hget, Hstatus.
  - intros response soup Hget Hstatus Hsoup.
    split; [by apply (Hraise response soup)|].
    split; [by apply (Hswallowed response soup)|].
    apply diff_of_empty_extraction. by apply (Hswallowed response soup).
  - intros e Hfetch Hcors.
    unfold get_stocks_from_url, get_stocks_try, mbind, M_bind, lift.
    unfold fetch_error in Hfetch. unfold mentions_cors in Hcors.
    destruct (requests_get w url) as [e'|response].
    + injection Hfetch as ->. cbn [fst]. by rewrite Hcors.
    + destruct (status_code response =? 200)%Z; [|discriminate Hfetch].
      destruct (soup_of response) as [e'|soup]; [|discriminate Hfetch].
      injection Hfetch as ->. cbn [fst]. by rewrite Hcors.
  - unfold _get_default_selectors, hostname_lower. by rewrite Hhost.
Qed.

End Hostless.

Lemma hostless_source_extraction_witness :
  let soup := page (lit ".stock-symbol") [lit "AAPL"] in
  let self := with_store {[ relative_url := {[ lit "MSFT" ]} ]} in
  hostname_of relative_url = inr None
  /\ (fst (get_stocks_try hostname_of ascii_lower (serving soup morning)
             self relative_url [])
      = inl AttributeError_lower
      /\ get_stocks_from_url hostname_of ascii_lower (serving soup morning)
           self relative_url = []
      /\ get_new_stocks_for_url hostname_of ascii_lower (serving soup morning)
           self relative_url = ([], self))
  /\ (forall e, fetch_error (offline morning) relative_url = Some e ->
                mentions_cors e = false)
  /\ (get_stocks_from_url hostname_of ascii_lower (offline morning)
        self relative_url = []
      /\ get_new_stocks_for_url hostname_of ascii_lower (offline morning)
           self relative_url = ([], self)).
Proof.
  intros soup self.
  assert (hostname_of relative_url = inr None) as Hhost by reflexivity.
  assert (forall e, fetch_error (offline morning) relative_url = Some e ->
                    mentions_cors e = false) as Hplain.
  { intros e He. vm_compute in He. injection He as <-. reflexivity. }
  split; [exact Hhost|]. split; [|split; [exact Hplain|]].
  - apply (proj1 (proj2 (hostless_source_extraction hostname_of ascii_lower
                           (serving soup morning) self relative_url Hhost))
             (mkResponse 200 (inr soup)) soup); reflexivity.
  - exact (proj1 (hostless_source_extraction hostname_of ascii_lower
                    (offline morning) self relative_url Hhost) Hplain).
Defined.

(** C10 as stated fails: a URL with a no-break space in front parses to no
    host name; when the primary request fails with an error that mentions
    CORS and the fallback request is answered, the extraction returns the
    name the site-special stage finds on the fallback page, and the diff
    stores it. *)
Lemma hostless_source_fallback_refuted :
  ~ (forall (w : World) (self : Monitor) (url : str),
       hostname_of url = inr None ->
       get_stocks_from_url hostname_of ascii_lower w self url = []).
Proof.
  intros H.
  specialize (H (FallbackExample.blocked
                   (page_of [(stock_name_selector, [lit "Bajaj Finance Ltd"])])
                   morning)
                (init [HostlessExample.padded_url] 300)
                HostlessExample.padded_url eq_refl).
  vm_compute in H. discriminate H.
Qed.

(** At that input the snapshot of the source is replaced. *)
Example hostless_source_fallback_snapshot :
  let w := FallbackExample.blocked
             (page_of [(stock_name_selector, [lit "Bajaj Finance Ltd"])]) morning in
  let self := init [HostlessExample.padded_url] 300 in
  hostname_of HostlessExample.padded_url = inr None
  /\ get_stocks_from_url hostname_of ascii_lower w self HostlessExample.padded_url
     = [lit "Bajaj Finance Ltd"]
  /\ url_stocks self !! HostlessExample.padded_url = Some ∅
  /\ url_stocks
       (snd (get_new_stocks_for_url hostname_of ascii_lower w self
               HostlessExample.padded_url)) !! HostlessExample.padded_url
     = Some {[ lit "Bajaj Finance Ltd" ]}.
Proof.
  intros w self. split; [reflexivity|]. split; [by vm_compute|].
  split; [by vm_compute|]. by vm_compute.
Qed.

(** ** What every stage keeps true of the identifiers it collects *)

Section Keeps.

Variable P : str -> Prop.

Lemma keeps_ret {A} (a : A) : keeps P (mret a : M A).
Proof. by intros st Hst. Qed.

Lemma keeps_lift {A} (r : exn + A) : keeps P (lift r).
Proof. by intros st Hst. Qed.

Lemma keeps_get : keeps P get_stocks.
Proof. by intros st Hst. Qed.

Lemma keeps_append (x : str) : P x -> keeps P (append x).
Proof.
  intros Hx st Hst. simpl. apply Forall_app. split; [done|]. by constructor.
Qed.

Lemma keeps_extend (xs : list str) : Forall P xs -> keeps P (extend xs).
Proof. intros Hxs st Hst. simpl. apply Forall_app. by split. Qed.

Lemma keeps_bind {A B} (m : M A) (f : A -> M B) :
  keeps P m -> (forall a, keeps P (f a)) -> keeps P (m ≫= f).
Proof.
  intros Hm Hf st Hst. unfold mbind, M_bind.
  specialize (Hm st Hst). destruct (m st) as [[e|a] st']; simpl in *; [done|].
  by apply Hf.
Qed.

Lemma keeps_when (b : bool) (m : M unit) :
  (b = true -> keeps P m) -> keeps P (when b m).
Proof. destruct b; simpl; [auto|]. intros _. apply keeps_ret. Qed.

Lemma keeps_try_except {A} (m : M A) (h : exn -> M A) :
  keeps P m -> (forall e, keeps P (h e)) -> keeps P (try_except m h).
Proof.
  intros Hm Hh st Hst. unfold try_except.
  specialize (Hm st Hst). destruct (m st) as [[e|a] st']; simpl in *; [|done].
  by apply Hh.
Qed.

Lemma keeps_for_each {A} (l : list A) (body : A -> M unit) :
  (forall x, keeps P (body x)) -> keeps P (for_each l body).
Proof.
  intros Hbody. induction l as [|x l IH]; simpl.
  - apply keeps_ret.
  - apply keeps_bind; [apply Hbody|]. by intros _.
Qed.

Lemma keeps_collect (m : M unit) : keeps P m -> Forall P (collect m).
Proof. intros Hm. apply Hm. constructor. Qed.

End Keeps.

(** The site-special stage returns whitespace-normalized names only. *)
Lemma scanx_normalized (soup : Tag) :
  Forall (fun x => normalize x = x) (_extract_from_scanx soup).
Proof.
  unfold _extract_from_scanx. apply keeps_collect.
  repeat first
    [ apply keeps_bind; [|intros ?]
    | apply keeps_for_each; intros ?
    | apply keeps_when; intros _
    | apply keeps_lift
    | apply keeps_get
    | apply keeps_ret
    | apply keeps_append; apply normalize_fix
    | match goal with |- keeps _ (match ?l with [] => _ | _ :: _ => _ end) =>
        destruct l
      end ].
Qed.

(** The generic table stage returns trimmed texts. *)
Lemma tables_trimmed (soup : Tag) :
  Forall (fun x => strip x = x) (_extract_from_tables soup).
Proof.
  unfold _extract_from_tables. apply keeps_collect.
  repeat first
    [ apply keeps_bind; [|intros ?]
    | apply keeps_for_each; intros ?
    | apply keeps_when; intros _
    | apply keeps_lift
    | apply keeps_get
    | apply keeps_ret
    | apply keeps_append; apply strip_fix
    | match goal with |- keeps _ (match ?l with [] => _ | _ :: _ => _ end) =>
        destruct l
      end
    | match goal with |- keeps _ (match ?o with Some _ => _ | None => _ end) =>
        destruct o
      end ].
Qed.

Lemma profile_loop_trimmed (soup : Tag) (selectors : list str) :
  keeps (fun x => strip x = x) (profile_loop soup selectors).
Proof.
  induction selectors as [|selector rest IH]; cbn [profile_loop].
  - apply keeps_ret.
  - apply keeps_bind.
    + apply keeps_try_except; [|intros ?; apply keeps_ret].
      apply keeps_bind; [apply keeps_lift|intros elements].
      apply keeps_bind; [|intros ?; apply keeps_bind;
                                   [apply keeps_get|intros ?; apply keeps_ret]].
      apply keeps_for_each. intros element. apply keeps_when. intros _.
      apply keeps_append, strip_fix.
    + intros [|]; [apply keeps_ret|apply IH].
Qed.

Lemma dedup_Forall (P : str -> Prop) (l : list str) :
  Forall P l -> Forall P (dedup l).
Proof.
  rewrite !List.Forall_forall. intros Hl x Hx.
  apply Hl. apply list_elem_of_In, elem_of_dedup, list_elem_of_In, Hx.
Qed.

Lemma scanx_trimmed (soup : Tag) :
  Forall (fun x => strip x = x) (_extract_from_scanx soup).
Proof.
  eapply Forall_impl; [apply scanx_normalized|]. apply normalized_trimmed.
Qed.

Lemma fallback_trimmed (w : World) (url : str) :
  Forall (fun x => strip x = x) (_get_stocks_with_fallback w url).
Proof.
  unfold _get_stocks_with_fallback.
  destruct (requests_get_fallback w url) as [e|response]; [constructor|].
  destruct (status_code response =? 200)%Z; [|constructor].
  destruct (soup_of response); [constructor|apply scanx_trimmed].
Qed.

Section Sound.

Variable P : str -> Prop.

Lemma sound_keeps {A} (m : M A) : keeps P m -> sound P (fun _ => True) m.
Proof.
  intros Hm st Hst. split; [by apply Hm|]. by destruct (fst (m st)).
Qed.

Lemma sound_ret {A} (Q : A -> Prop) (a : A) : Q a -> sound P Q (mret a : M A).
Proof. by intros Ha st Hst. Qed.

Lemma sound_get : sound P (Forall P) get_stocks.
Proof. by intros st Hst. Qed.

Lemma sound_bind {A B} (Q : A -> Prop) (R : B -> Prop) (m : M A) (f : A -> M B) :
  sound P Q m -> (forall a, Q a -> sound P R (f a)) -> sound P R (m ≫= f).
Proof.
  intros Hm Hf st Hst. unfold mbind, M_bind.
  destruct (Hm st Hst) as [Hst' Ha].
  destruct (m st) as [[e|a] st']; simpl in *; [done|].
  by apply Hf.
Qed.

End Sound.

(** The [try] block of the extraction returns trimmed identifiers. *)
Lemma get_stocks_try_trimmed (urlparse_hostname : str -> exn + option str)
    (lower : str -> str) (w : World) (self : Monitor) (url : str) :
  sound (fun x => strip x = x) (Forall (fun x => strip x = x))
    (get_stocks_try urlparse_hostname lower w self url).
Proof.
  unfold get_stocks_try.
  eapply sound_bind; [apply sound_keeps, keeps_lift|intros response _].
  destruct (status_code response =? 200)%Z; [|apply sound_ret; constructor].
  eapply sound_bind; [apply sound_keeps, keeps_lift|intros soup _].
  eapply sound_bind; [apply sound_keeps, keeps_lift|intros domain _].
  apply (sound_bind _ (fun early => match early with
                                    | Some found => Forall (fun x => strip x = x) found
                                    | None => True
                                    end)).
  - destruct (contains (lit "scanx.trade") domain); [|by apply sound_ret].
    eapply sound_bind;
      [apply sound_keeps, keeps_extend, scanx_trimmed|intros _ _].
    eapply sound_bind; [apply sound_get|intros stocks Hstocks].
    apply sound_ret. destruct (is_nil stocks); [done|]. by apply dedup_Forall.
  - intros [found|] Hearly; [by apply sound_ret|].
    eapply sound_bind; [apply sound_keeps, keeps_lift|intros selectors _].
    eapply sound_bind;
      [apply sound_keeps, profile_loop_trimmed|intros _ _].
    eapply sound_bind; [apply sound_get|intros stocks _].
    eapply sound_bind.
    { apply sound_keeps, keeps_when. intros _.
      apply keeps_extend, tables_trimmed. }
    intros _ _.
    eapply sound_bind; [apply sound_get|intros stocks' Hstocks'].
    apply sound_ret. by apply dedup_Forall.
Qed.

(** Every identifier the extraction returns, at whatever stage, is
    trimmed. *)
Lemma extraction_trimmed (urlparse_hostname : str -> exn + option str)
    (lower : str -> str) (w : World) (self : Monitor) (url : str) :
  Forall (fun x => strip x = x)
    (get_stocks_from_url urlparse_hostname lower w self url).
Proof.
  unfold get_stocks_from_url.
  destruct (get_stocks_try_trimmed urlparse_hostname lower w self url [])
    as [_ Hfound]; [constructor|].
  destruct (fst (get_stocks_try urlparse_hostname lower w self url []))
    as [e|found]; [|done].
  destruct (_ || _); [apply fallback_trimmed|constructor].
Qed.

(** ** The site-special stage and the validator *)

(** C9.  On a scanx.trade source the extraction can return identifiers the
    validator rejects: Method A returns a first-cell name of 56 characters,
    and Method C returns a cell text of 99 characters with spaces and the
    marker NSE; both are longer than the 50 characters the validator
    allows, and neither is ever shown to it. *)
Theorem scanx_stage_bypasses_validator :
  (exists (soup : Tag) (name : str),
     get_stocks_from_url hostname_of ascii_lower (serving soup morning)
       (init [scanx_url] 300) scanx_url = [name]
     /\ _is_valid_stock_symbol name = false
     /\ length name = 56%nat)
  /\ (exists (soup : Tag) (name : str),
        _extract_from_scanx soup = [name]
        /\ get_stocks_from_url hostname_of ascii_lower (serving soup morning)
             (init [scanx_url] 300) scanx_url = [name]
        /\ _is_valid_stock_symbol name = false
        /\ has_char space name = true
        /\ length name = 99%nat).
Proof.
  split.
  - exists (scanx_table [long_name; lit "1,234.50"]), long_name.
    by vm_compute.
  - exists (page (lit "td, div, span") [long_cell]), long_cell.
    by vm_compute.
Qed.

(** ** Whitespace in the identifiers of the generic stages *)

(** C6, at the failing input.  On a source without special handling the
    profile stage returns the text of a matched element after trimming
    only: a name with two spaces inside comes back with both, which is not
    its whitespace-normalized form.  The generic table stage does the
    same. *)
Theorem profile_stage_keeps_inner_whitespace :
  get_stocks_from_url hostname_of ascii_lower
    (serving (page (lit ".stock-symbol") [lit " Bajaj  Holdings "]) morning)
    (init [example_url] 300) example_url
  = [lit "Bajaj  Holdings"]
  /\ is_normalized (lit "Bajaj  Holdings") = false
  /\ normalize (lit "Bajaj  Holdings") = lit "Bajaj Holdings"
  /\ _extract_from_tables
       (mkTag [] (fun s =>
          if decide (s = lit "tr")
          then inr [page (lit "td, th") [lit "Bajaj  Holdings"]]
          else inr []))
     = [lit "Bajaj  Holdings"].
Proof. by vm_compute. Qed.

(** The site-special stage on the same text returns the normalized form. *)
Example scanx_stage_collapses_inner_whitespace :
  _extract_from_scanx (scanx_table [lit " Bajaj  Holdings "])
  = [lit "Bajaj Holdings"].
Proof. by vm_compute. Qed.

(** ** Alert formatting *)

Section Formatting.

Variable urlparse_hostname : str -> exn + option str.

(** C7, as amended.  Two invocations of the formatting with the same
    source and the same list of new identifiers produce the same message
    whenever the clock reads the same at both; nothing else of the
    surroundings or of the monitor enters the message. *)
Theorem message_determined_up_to_clock
    (w1 w2 : World) (self1 self2 : Monitor) (url : str) (new_stocks : list str) :
  now_strftime w1 = now_strftime w2 ->
  format_stock_message urlparse_hostname w1 self1 url new_stocks
  = format_stock_message urlparse_hostname w2 self2 url new_stocks.
Proof.
  intros Hclock. unfold format_stock_message, message_footer.
  by rewrite Hclock.
Qed.

End Formatting.

Lemma message_determined_up_to_clock_witness :
  now_strftime (offline morning)
  = now_strftime (serving (page (lit ".ticker") [lit "AAPL"]) morning)
  /\ format_stock_message hostname_of (offline morning)
       (init [example_url] 300) example_url [lit "TSLA"]
     = format_stock_message hostname_of
         (serving (page (lit ".ticker") [lit "AAPL"]) morning)
         (with_store {[ example_url := {[ lit "AAPL" ]} ]}) example_url [lit "TSLA"].
Proof.
  split; [reflexivity|].
  apply (message_determined_up_to_clock hostname_of). reflexivity.
Defined.

(** C7 as stated fails: the message carries the time of the invocation, so
    the same source and the same identifiers give different messages five
    minutes apart. *)
Lemma message_not_determined_by_source_and_set :
  ~ (forall (w1 w2 : World) (self : Monitor) (url : str) (new_stocks : list str),
       format_stock_message hostname_of w1 self url new_stocks
       = format_stock_message hostname_of w2 self url new_stocks).
Proof.
  intros H.
  specialize (H (offline morning) (offline later) (init [example_url] 300)
                example_url [lit "TSLA"]).
  vm_compute in H. discriminate H.
Qed.

(** The message follows the order of the list it is given. *)
Example message_follows_list_order :
  format_stock_message hostname_of (offline morning) (init [example_url] 300)
    example_url [lit "AAPL"; lit "TSLA"]
  <> format_stock_message hostname_of (offline morning) (init [example_url] 300)
       example_url [lit "TSLA"; lit "AAPL"].
Proof. vm_compute. discriminate. Qed.

(** The plural form on twelve identifiers lists ten and counts two more. *)
Example message_twelve :
  format_stock_message hostname_of (offline morning) (init [example_url] 300)
    example_url (List.map (fun c => [c]) (lit "ABCDEFGHIJKL"))
  = inr (siren ++ lit " <b>12 New Stocks Alert!</b>" ++ nl
         ++ nl
         ++ chart ++ lit " <b>New Stocks:</b>" ++ nl
         ++ bullet ++ lit " A" ++ nl ++ bullet ++ lit " B" ++ nl
         ++ bullet ++ lit " C" ++ nl ++ bullet ++ lit " D" ++ nl
         ++ bullet ++ lit " E" ++ nl ++ bullet ++ lit " F" ++ nl
         ++ bullet ++ lit " G" ++ nl ++ bullet ++ lit " H" ++ nl
         ++ bullet ++ lit " I" ++ nl ++ bullet ++ lit " J" ++ nl
         ++ lit "... and 2 more" ++ nl
         ++ nl
         ++ globe ++ lit " <b>Source:</b> example.com" ++ nl
         ++ clock ++ lit " <b>Detected:</b> 2026-01-05 09:30:00" ++ nl
         ++ nl
         ++ lit "<a href=" ++ dq ++ example_url ++ dq ++ lit ">" ++ link
         ++ lit " View Screener</a>").
Proof. vm_compute. reflexivity. Qed.

(** The singular form names the one identifier. *)
Example message_one :
  format_stock_message hostname_of (offline morning) (init [example_url] 300)
    example_url [lit "TSLA"]
  = inr (siren ++ lit " <b>New Stock Alert!</b>" ++ nl
         ++ nl
         ++ chart ++ lit " <b>Stock:</b> TSLA" ++ nl
         ++ globe ++ lit " <b>Source:</b> example.com" ++ nl
         ++ clock ++ lit " <b>Detected:</b> 2026-01-05 09:30:00" ++ nl
         ++ nl
         ++ lit "<a href=" ++ dq ++ example_url ++ dq ++ lit ">" ++ link
         ++ lit " View Screener</a>").
Proof. vm_compute. reflexivity. Qed.

(** * Further properties of the code *)

(** ** More on the validator *)

Lemma strip_length (s : str) : (length (strip s) <= length s)%nat.
Proof.
  unfold strip, rstrip. rewrite length_rev.
  etransitivity; [apply lstrip_length|]. rewrite length_rev.
  apply lstrip_length.
Qed.

Lemma lstrip_fixed_head (c : N) (u : str) :
  lstrip (c :: u) = c :: u -> isspace c = false.
Proof.
  intros Hu. destruct (isspace c) eqn:Hc; [|done].
  simpl in Hu. rewrite Hc in Hu.
  pose proof (lstrip_length u) as Hl. rewrite Hu in Hl. simpl in Hl. lia.
Qed.

Lemma rstrip_fixed_space (u : str) :
  rstrip u = u -> has_char space u = true -> (2 <= length u)%nat.
Proof.
  destruct u as [|x u]; [done|]. rewrite rstrip_cons.
  destruct (rstrip u) as [|y r] eqn:Hr.
  - destruct (isspace x) eqn:Hx; [done|]. intros [= <-].
    unfold has_char. cbn [existsb]. rewrite orb_false_r. intros Heq.
    apply N.eqb_eq in Heq. subst x.
    discriminate Hx.
  - intros [= Hu] _. rewrite <- Hu. simpl. lia.
Qed.

(** A trimmed text with a space in it has a character on either side of
    the space. *)
Lemma trimmed_space_length (u : str) :
  lstrip u = u -> rstrip u = u -> has_char space u = true ->
  (3 <= length u)%nat.
Proof.
  destruct u as [|c u]; [done|]. intros Hl Hr Hsp.
  apply lstrip_fixed_head in Hl. unfold has_char in Hsp. cbn [existsb] in Hsp.
  assert (c <> space) as Hc by (intros ->; discriminate Hl).
  rewrite rstrip_cons in Hr. destruct (rstrip u) as [|y r] eqn:Hru.
  - rewrite Hl in Hr. injection Hr as <-. cbn [existsb] in Hsp.
    rewrite orb_false_r in Hsp. apply N.eqb_eq in Hsp. by subst c.
  - injection Hr as Hr.
    assert ((space =? c) = false) as Hne by (apply N.eqb_neq; congruence).
    rewrite Hne in Hsp. cbn [orb] in Hsp.
    assert (rstrip u = u) as Hfix by congruence.
    pose proof (rstrip_fixed_space u Hfix Hsp). simpl. lia.
Qed.

Lemma strip_trimmed (s : str) :
  lstrip (strip s) = strip s /\ rstrip (strip s) = strip s.
Proof.
  unfold strip. split.
  - apply lstrip_rstrip, lstrip_fix.
  - apply rstrip_fix.
Qed.

(** X1.  Up to the guard on the raw length, the validator looks at the
    trimmed text only: an input of at most 50 characters and its trimmed
    form get the same verdict. *)
Theorem validator_sees_trimmed_text (text : str) :
  (length text <= 50)%nat ->
  _is_valid_stock_symbol text = _is_valid_stock_symbol (strip text).
Proof.
  intros Hlen. unfold _is_valid_stock_symbol. rewrite strip_fix.
  pose proof (strip_length text) as Hs.
  assert ((50 <? length text)%nat = false) as -> by (apply Nat.ltb_ge; lia).
  assert ((50 <? length (strip text))%nat = false) as ->
    by (apply Nat.ltb_ge; lia).
  rewrite !orb_false_r.
  destruct text as [|c text]; [done|]. cbn [is_nil].
  by destruct (is_nil (strip (c :: text))).
Qed.

Lemma validator_sees_trimmed_text_witness :
  (length (lit "  INFY  ") <= 50)%nat
  /\ _is_valid_stock_symbol (lit "  INFY  ")
     = _is_valid_stock_symbol (strip (lit "  INFY  ")).
Proof.
  assert ((length (lit "  INFY  ") <= 50)%nat) as H by (vm_compute; lia).
  split; [exact H|]. exact (validator_sees_trimmed_text (lit "  INFY  ") H).
Defined.

(** X2.  Any text of at most 50 characters whose trimmed form contains a
    space is accepted, whatever its characters: the lower bound of 3 on a
    name can never fail, because a trimmed text with a space has a
    character before and after it. *)
Theorem spaced_text_accepted (text : str) :
  (length text <= 50)%nat ->
  has_char space (strip text) = true ->
  _is_valid_stock_symbol text = true.
Proof.
  intros Hlen Hsp. unfold _is_valid_stock_symbol.
  pose proof (strip_length text) as Hs.
  destruct (strip_trimmed text) as [Hl Hr].
  pose proof (trimmed_space_length (strip text) Hl Hr Hsp) as H3.
  assert (is_nil text = false) as -> by (destruct text; [discriminate Hsp|done]).
  assert ((50 <? length text)%nat = false) as -> by (apply Nat.ltb_ge; lia).
  assert (is_nil (strip text) = false) as ->
    by (destruct (strip text); [discriminate Hsp|done]).
  rewrite Hsp. cbn [orb]. apply andb_true_iff.
  split; apply Nat.leb_le; lia.
Qed.

Lemma spaced_text_accepted_witness :
  (length (lit "no data") <= 50)%nat
  /\ has_char space (strip (lit "no data")) = true
  /\ _is_valid_stock_symbol (lit "no data") = true.
Proof.
  assert ((length (lit "no data") <= 50)%nat) as H1 by (vm_compute; lia).
  assert (has_char space (strip (lit "no data")) = true) as H2 by reflexivity.
  split; [exact H1|]. split; [exact H2|].
  exact (spaced_text_accepted (lit "no data") H1 H2).
Defined.

Lemma alnum_no_dot (s a b : str) :
  Forall (fun c => is_alnum c = true) s -> s <> a ++ [dot] ++ b.
Proof.
  intros HF ->. rewrite List.Forall_forall in HF.
  assert (is_alnum dot = true) as Hd; [|discriminate Hd].
  apply HF, in_or_app. right. by left.
Qed.





(** X4.  The dotted pattern is one of the five, yet it can never match:
    the text handed to the patterns has had every dot removed.  A symbol
    such as BRK.B is accepted all the same, through the letters-only
    patterns. *)
Theorem dotted_pattern_never_matches :
  In dotted_pattern patterns
  /\ (forall text : str, re_match dotted_pattern (keep_alnum text) = false)
  /\ _is_valid_stock_symbol (lit "BRK.B") = true.
Proof.
  split; [right; by left|]. split; [|reflexivity].
  intros text. apply not_true_is_false. unfold re_match, dotted_pattern.
  rewrite ReFacts.match_pieces_spec. cbn [accepts].
  intros (_ & a & r1 & Hs & _ & _ & p & r2 & -> & Hp & Hlp & _).
  apply one_dot in Hp as ->; [|done].
  by apply (alnum_no_dot (keep_alnum text) a r2 (keep_alnum_alnum text)).
Qed.

(** ** The selector resolver *)

Lemma first_profile_hit (domain : str) (pre : list (str * list str))
    (key : str) (selectors : list str) (post : list (str * list str)) :
  (forall k v, In (k, v) pre -> contains k domain = false) ->
  contains key domain = true ->
  first_profile domain (pre ++ (key, selectors) :: post) = Some selectors.
Proof.
  intros Hpre Hkey. induction pre as [|[k v] pre IH]; simpl.
  - by rewrite Hkey.
  - rewrite (Hpre k v) by (by left). apply IH.
    intros k' v' Hin. apply (Hpre k' v'). by right.
Qed.

Lemma first_profile_miss (domain : str) (items : list (str * list str)) :
  (forall k v, In (k, v) items -> contains k domain = false) ->
  first_profile domain items = None.
Proof.
  intros Hitems. induction items as [|[k v] items IH]; simpl; [done|].
  rewrite (Hitems k v) by (by left). apply IH.
  intros k' v' Hin. apply (Hitems k' v'). by right.
Qed.

Section Resolver.

Variable urlparse_hostname : str -> exn + option str.
Variable lower : str -> str.

(** X5.  The resolver returns the profile of the first key, in the order
    of the table, that occurs in the lowercased host name; entries after it
    are not looked at, even when their keys occur as well. *)
Theorem resolver_first_key_wins (self : Monitor) (url domain : str)
    (pre : list (str * list str)) (key : str) (selectors : list str)
    (post : list (str * list str)) :
  hostname_lower urlparse_hostname lower url = inr domain ->
  default_selectors self = pre ++ (key, selectors) :: post ->
  (forall k v, In (k, v) pre -> contains k domain = false) ->
  contains key domain = true ->
  _get_default_selectors urlparse_hostname lower self url = inr selectors.
Proof.
  intros Hdom Htable Hpre Hkey. unfold _get_default_selectors.
  by rewrite Hdom, Htable, (first_profile_hit domain pre key selectors post).
Qed.

(** X6.  When no key of the table occurs in the lowercased host name, the
    resolver returns the six generic selectors; with a host name present it
    never raises. *)
Theorem resolver_generic_fallback (self : Monitor) (url domain : str) :
  hostname_lower urlparse_hostname lower url = inr domain ->
  (forall k v, In (k, v) (default_selectors self) -> contains k domain = false) ->
  _get_default_selectors urlparse_hostname lower self url
  = inr [ lit ".stock-symbol"; lit ".ticker"; lit ".symbol";
          lit "[data-symbol]"; lit ".stock"; lit ".ticker-symbol" ].
Proof.
  intros Hdom Htable. unfold _get_default_selectors.
  by rewrite Hdom, (first_profile_miss domain _ Htable).
Qed.

End Resolver.

Lemma resolver_first_key_wins_witness :
  _get_default_selectors hostname_of ascii_lower
    (init [scanx_url] 300) scanx_url
  = inr [ lit "table tbody tr td:first-child"; lit "tr td:first-child";
          lit "td:first-child"; lit ".stock-name"; lit "[data-stock-name]";
          lit "td" ].
Proof.
  apply (resolver_first_key_wins hostname_of ascii_lower
           (init [scanx_url] 300) scanx_url (lit "scanx.trade")
           [ (lit "finviz.com", [lit ".screener-link"; lit ".screener-body-cell"]);
             (lit "yahoo.com", [lit ".ticker"; lit ".symbol"]);
             (lit "marketwatch.com", [lit ".symbol"; lit ".ticker"]);
             (lit "seekingalpha.com", [lit ".symbol"; lit ".ticker"]);
             (lit "stocktwits.com", [lit ".symbol"; lit ".ticker"]) ]
           (lit "scanx.trade") _ []).
  - reflexivity.
  - reflexivity.
  - intros k v Hin. simpl in Hin.
    repeat (destruct Hin as [[= <- <-]|Hin]; [reflexivity|]). destruct Hin.
  - reflexivity.
Defined.

Lemma resolver_generic_fallback_witness :
  _get_default_selectors hostname_of ascii_lower
    (init [example_url] 300) example_url
  = inr [ lit ".stock-symbol"; lit ".ticker"; lit ".symbol";
          lit "[data-symbol]"; lit ".stock"; lit ".ticker-symbol" ].
Proof.
  apply (resolver_generic_fallback hostname_of ascii_lower
           (init [example_url] 300) example_url (lit "example.com")).
  - reflexivity.
  - intros k v Hin. simpl in Hin.
    repeat (destruct Hin as [[= <- <-]|Hin]; [reflexivity|]). destruct Hin.
Defined.

(** ** More on whitespace *)

Lemma collapse_nil (s : str) :
  forall b, collapse_from b s = [] -> rstrip s = [].
Proof.
  induction s as [|c s IH]; intros b; simpl; [done|].
  destruct (isspace c) eqn:Hc; [|done].
  destruct b; [|done]. intros Hs. rewrite rstrip_cons, (IH true Hs).
  by rewrite Hc.
Qed.

Lemma collapse_rstrip_fixed (t : str) :
  forall b, rstrip t = t -> rstrip (collapse_from b t) = collapse_from b t.
Proof.
  induction t as [|c t IH]; intros b; [done|].
  rewrite rstrip_cons. destruct (rstrip t) as [|y r] eqn:Hr.
  - destruct (isspace c) eqn:Hc; [done|]. intros [= <-].
    simpl. rewrite Hc. rewrite rstrip_cons. simpl. by rewrite Hc.
  - intros [= Ht]. assert (rstrip t = t) as Hfix by congruence.
    assert (forall b', collapse_from b' t <> []) as Hne.
    { intros b' Hnil. apply collapse_nil in Hnil. congruence. }
    simpl. destruct (isspace c) eqn:Hc.
    + destruct b; [by apply IH|].
      rewrite rstrip_cons, (IH true Ht).
      destruct (collapse_from true t) eqn:Hcol; [by destruct (Hne true)|done].
    + rewrite rstrip_cons, (IH false Ht).
      destruct (collapse_from false t) eqn:Hcol; [by destruct (Hne false)|done].
Qed.

Lemma collapse_lstrip_fixed (t : str) :
  lstrip t = t -> lstrip (collapse_from false t) = collapse_from false t.
Proof.
  destruct t as [|c t]; [done|]. intros Ht.
  apply lstrip_fixed_head in Ht. simpl. rewrite Ht. simpl. by rewrite Ht.
Qed.

(** On trimmed text normalizing is collapsing. *)
Lemma normalize_trimmed (t : str) :
  lstrip t = t -> rstrip t = t -> normalize t = collapse_ws t.
Proof.
  intros Hl Hr. unfold normalize, strip, collapse_ws.
  rewrite (collapse_lstrip_fixed t Hl). by apply collapse_rstrip_fixed.
Qed.

Lemma collapse_keeps_space (t : str) :
  has_char space t = true -> has_char space (collapse_from false t) = true.
Proof.
  unfold has_char. induction t as [|c t IH]; [done|]. cbn [existsb collapse_from].
  destruct (isspace c) eqn:Hc; [done|]. cbn [existsb].
  destruct (N.eqb_spec space c) as [<-|Hne]; [discriminate Hc|]. apply IH.
Qed.

Lemma normalize_keeps_space (t : str) :
  has_char space (strip t) = true ->
  has_char space (normalize (strip t)) = true.
Proof.
  intros Hsp. destruct (strip_trimmed t) as [Hl Hr].
  rewrite (normalize_trimmed _ Hl Hr). by apply collapse_keeps_space.
Qed.

(** ** More on the site-special stage *)

Lemma scanx_names_inv (soup : Tag) :
  Forall (fun name =>
            normalize name = name
            /\ has_char space name = true
            /\ (5 <= length name)%nat)
    (_extract_from_scanx soup).
Proof.
  unfold _extract_from_scanx. apply keeps_collect.
  apply keeps_bind; [apply keeps_lift|intros table_rows].
  apply keeps_bind.
  { apply keeps_for_each. intros row.
    apply keeps_bind; [apply keeps_lift|intros [|cell0 cells]]; [apply keeps_ret|].
    apply keeps_when. intros _. apply keeps_when. intros Hc.
    apply andb_true_iff in Hc as [Hsp Hlen]. apply Nat.leb_le in Hlen.
    apply keeps_append. split; [apply normalize_fix|]. by split. }
  intros _. apply keeps_bind; [apply keeps_get|intros stocks].
  apply keeps_bind.
  { apply keeps_when. intros _.
    apply keeps_bind; [apply keeps_lift|intros stock_elements].
    apply keeps_for_each. intros element.
    apply keeps_when. intros _. apply keeps_when. intros Hc.
    apply andb_true_iff in Hc as [Hsp Hlen]. apply Nat.leb_le in Hlen.
    apply keeps_append. split; [apply normalize_fix|]. by split. }
  intros _. apply keeps_bind; [apply keeps_get|intros stocks'].
  apply keeps_when. intros _.
  apply keeps_bind; [apply keeps_lift|intros all_text_elements].
  apply keeps_for_each. intros element.
  apply keeps_when. intros _. apply keeps_when. intros Hc.
  apply andb_true_iff in Hc as [Hsp _].
  apply keeps_when. intros Hlen. apply Nat.leb_le in Hlen.
  apply keeps_append. split; [apply normalize_fix|]. split; [|done].
  by apply normalize_keeps_space.
Qed.

(** X7.  Every name the site-special stage returns, by whichever of its
    three methods, is whitespace-normalized, contains a space and has at
    least 5 characters. *)
Theorem scanx_names_well_formed (soup : Tag) :
  Forall (fun name =>
            normalize name = name
            /\ has_char space name = true
            /\ (5 <= length name)%nat)
    (_extract_from_scanx soup).
Proof.
  eapply Forall_impl; [apply scanx_names_inv|]. by intros name (? & ? & ?).
Qed.

Lemma for_each_spec {A} (l : list A) (body : A -> M unit) (out : A -> list str) :
  (forall x st, In x l -> body x st = (inr tt, st ++ out x)) ->
  forall st, for_each l body st = (inr tt, st ++ flat_map out l).
Proof.
  induction l as [|x l IH]; intros Hbody st; simpl.
  - by rewrite app_nil_r.
  - unfold mbind, M_bind. rewrite (Hbody x st) by (by left).
    rewrite IH by (intros y st' Hy; apply Hbody; by right).
    by rewrite app_assoc.
Qed.

Lemma for_each_raise {A} (l1 : list A) (bad : A) (l2 : list A)
    (body : A -> M unit) (out : A -> list str) (e : exn) :
  (forall x st, In x l1 -> body x st = (inr tt, st ++ out x)) ->
  (forall st, body bad st = (inl e, st)) ->
  forall st, for_each (l1 ++ bad :: l2) body st = (inl e, st ++ flat_map out l1).
Proof.
  induction l1 as [|x l1 IH]; intros Hbody Hbad st; simpl.
  - unfold mbind, M_bind. by rewrite Hbad, app_nil_r.
  - unfold mbind, M_bind. rewrite (Hbody x st) by (by left).
    rewrite IH; [|intros y st' Hy; apply Hbody; by right|done].
    by rewrite app_assoc.
Qed.

Lemma scanx_row_turn (row : Tag) (st : list str) :
  answers (select row (lit "td")) ->
  (cells ← lift (select row (lit "td"));
   match cells with
   | [] => mret tt
   | cell0 :: _ =>
       let first_cell := strip (get_text cell0) in
       when (negb (is_nil first_cell) && (3 <? length first_cell)%nat) (
         let clean_name := strip (collapse_ws first_cell) in
         when (has_char space clean_name && (5 <=? length clean_name)%nat)
           (append clean_name))
   end) st
  = (inr tt, st ++ first_cell_name row).
Proof.
  intros [cells Hcells]. unfold first_cell_name, mbind, M_bind, lift.
  rewrite Hcells. destruct cells as [|cell0 cells].
  - by rewrite app_nil_r.
  - unfold scanx_name, when.
    destruct (negb _ && _); [|by rewrite app_nil_r].
    destruct (has_char _ _ && _); [done|by rewrite app_nil_r].
Qed.

Lemma scanx_name_turn (element : Tag) (st : list str) :
  (let text := strip (get_text element) in
   when (negb (is_nil text) && (3 <? length text)%nat) (
     let clean_name := strip (collapse_ws text) in
     when (has_char space clean_name && (5 <=? length clean_name)%nat)
       (append clean_name))) st
  = (inr tt, st ++ scanx_name (text_of element)).
Proof.
  unfold scanx_name, text_of, when.
  destruct (negb _ && _); [|by rewrite app_nil_r].
  destruct (has_char _ _ && _); [done|by rewrite app_nil_r].
Qed.

Lemma scanx_marked_turn (element : Tag) (st : list str) :
  (let text := strip (get_text element) in
   when (negb (is_nil text) && (10 <? length text)%nat && (length text <? 100)%nat) (
     when (has_char space text
           && (contains (lit "NSE") text || contains (lit "BSE") text
               || contains (lit "&") text)) (
       let clean_name := strip (collapse_ws text) in
       when (5 <=? length clean_name)%nat (append clean_name)))) st
  = (inr tt, st ++ scanx_marked (text_of element)).
Proof.
  unfold scanx_marked, text_of, when.
  destruct (negb _ && _ && _); [|by rewrite app_nil_r].
  destruct (has_char _ _ && _); [|by rewrite app_nil_r].
  destruct (5 <=? _)%nat; [done|by rewrite app_nil_r].
Qed.

(** X8.  When none of its queries raises, the site-special stage returns
    the names of the first of its three methods that finds any: the first
    cells of the table rows, else the elements with a stock or name class,
    else the marked texts of all cells, divs and spans. *)
Theorem scanx_first_method_wins (soup : Tag) (rows named all_text : list Tag) :
  select soup (lit "table tbody tr") = inr rows ->
  Forall (fun row => answers (select row (lit "td"))) rows ->
  select soup stock_name_selector = inr named ->
  select soup (lit "td, div, span") = inr all_text ->
  let names_1 := flat_map first_cell_name rows in
  let names_2 := flat_map (fun element => scanx_name (text_of element)) named in
  let names_3 :=
    flat_map (fun element => scanx_marked (text_of element)) all_text in
  _extract_from_scanx soup =
  if negb (is_nil names_1) then names_1
  else if negb (is_nil names_2) then names_2
  else names_3.
Proof.
  intros Hrows Hcells Hnamed Hall. cbv zeta.
  unfold _extract_from_scanx, collect.
  unfold mbind at 1, M_bind at 1, lift at 1. rewrite Hrows.
  unfold mbind at 1, M_bind at 1.
  rewrite (for_each_spec rows _ first_cell_name).
  2:{ intros row st Hin. apply scanx_row_turn.
      rewrite List.Forall_forall in Hcells. by apply Hcells. }
  cbn [app]. unfold mbind at 1, M_bind at 1, get_stocks at 1.
  destruct (flat_map first_cell_name rows) as [|name names] eqn:HA.
  - cbn [is_nil when]. unfold mbind at 1, M_bind at 1.
    unfold mbind at 1, M_bind at 1, lift at 1. rewrite Hnamed.
    rewrite (for_each_spec named _ (fun element => scanx_name (text_of element)))
      by (intros element st _; apply scanx_name_turn).
    cbn [app]. unfold mbind at 1, M_bind at 1, get_stocks at 1.
    destruct (flat_map _ named) as [|name names] eqn:HB.
    + cbn [is_nil when]. unfold mbind, M_bind, lift. rewrite Hall.
      by rewrite (for_each_spec all_text _
                    (fun element => scanx_marked (text_of element)))
        by (intros element st _; apply scanx_marked_turn).
    + reflexivity.
  - reflexivity.
Qed.

Import MoreExamples.

Lemma scanx_first_method_wins_witness :
  _extract_from_scanx
    (page_of [ (stock_name_selector, [lit "Tata  Motors Ltd"; lit "TCS"]);
               (lit "td, div, span", [lit "Reliance Industries NSE"]) ])
  = [lit "Tata Motors Ltd"].
Proof.
  apply (scanx_first_method_wins
           (page_of [ (stock_name_selector, [lit "Tata  Motors Ltd"; lit "TCS"]);
                      (lit "td, div, span", [lit "Reliance Industries NSE"]) ])
           [] [leaf (lit "Tata  Motors Ltd"); leaf (lit "TCS")]
           [leaf (lit "Reliance Industries NSE")]).
  - reflexivity.
  - constructor.
  - reflexivity.
  - reflexivity.
Defined.

(** X9.  An error inside the site-special stage ends it at once: if the
    row query raises, nothing is returned; if the cell query raises on some
    row, the names of the rows before it are returned and the remaining
    rows and the two other methods are not tried, even when no name has
    been found yet. *)
Theorem scanx_error_ends_extraction (soup : Tag) :
  (forall e, select soup (lit "table tbody tr") = inl e ->
             _extract_from_scanx soup = [])
  /\ (forall rows1 bad rows2 e,
        select soup (lit "table tbody tr") = inr (rows1 ++ bad :: rows2) ->
        Forall (fun row => answers (select row (lit "td"))) rows1 ->
        select bad (lit "td") = inl e ->
        _extract_from_scanx soup = flat_map first_cell_name rows1).
Proof.
  split.
  - intros e Hrows. unfold _extract_from_scanx, collect.
    unfold mbind at 1, M_bind at 1, lift at 1. by rewrite Hrows.
  - intros rows1 bad rows2 e Hrows Hcells Hbad.
    unfold _extract_from_scanx, collect.
    unfold mbind at 1, M_bind at 1, lift at 1. rewrite Hrows.
    unfold mbind at 1, M_bind at 1.
    rewrite (for_each_raise rows1 bad rows2 _ first_cell_name e); [done| |].
    + intros row st Hin. apply scanx_row_turn.
      rewrite List.Forall_forall in Hcells. by apply Hcells.
    + intros st. unfold mbind, M_bind, lift. by rewrite Hbad.
Qed.

Lemma scanx_error_ends_extraction_witness :
  _extract_from_scanx
    (table_of [ row_of [lit "Bajaj Finance Ltd"; lit "7,012.00"];
                broken;
                row_of [lit "Asian Paints Ltd"; lit "2,950.10"] ])
  = [lit "Bajaj Finance Ltd"].
Proof.
  apply (proj2 (scanx_error_ends_extraction
                  (table_of [ row_of [lit "Bajaj Finance Ltd"; lit "7,012.00"];
                              broken;
                              row_of [lit "Asian Paints Ltd"; lit "2,950.10"] ]))
           [row_of [lit "Bajaj Finance Ltd"; lit "7,012.00"]] broken
           [row_of [lit "Asian Paints Ltd"; lit "2,950.10"]]
           (Exception (lit "Malformed selector"))).
  - reflexivity.
  - constructor; [|constructor]. by eexists.
  - reflexivity.
Defined.

(** ** More on the generic table stage *)

Lemma tables_row_turn (row : Tag) (st : list str) :
  answers (select row (lit "td, th")) ->
  (cells ← lift (select row (lit "td, th"));
   match cells with
   | [] => mret tt
   | cell0 :: _ =>
       let first_cell := strip (get_text cell0) in
       when (_is_valid_stock_symbol first_cell) (append first_cell);;
       for_each (seq 1 (Nat.min (length cells) 3 - 1)) (fun i =>
         match cells !! i with
         | None => lift (inl IndexError)
         | Some cell =>
             let cell_text := strip (get_text cell) in
             when (_is_valid_stock_symbol cell_text) (append cell_text)
         end)
   end) st
  = (inr tt, st ++ row_candidates row).
Proof.
  intros [cells Hcells]. unfold row_candidates, mbind, M_bind, lift.
  rewrite Hcells. unfold text_of.
  destruct cells as [|c0 [|c1 [|c2 rest]]].
  - by rewrite app_nil_r.
  - cbn. destruct (_is_valid_stock_symbol _); cbn; by rewrite ?app_nil_r.
  - cbn. unfold mbind, M_bind.
    destruct (_is_valid_stock_symbol (strip (get_text c0)));
      destruct (_is_valid_stock_symbol (strip (get_text c1)));
      cbn; by rewrite <- ?app_assoc, ?app_nil_r.
  - cbn [length take List.map List.filter]. rewrite Nat.min_0_r || idtac.
    replace (Nat.min (S (S (S (length rest)))) 3 - 1)%nat with 2%nat by lia.
    cbn. unfold mbind, M_bind.
    destruct (_is_valid_stock_symbol (strip (get_text c0)));
      destruct (_is_valid_stock_symbol (strip (get_text c1)));
      destruct (_is_valid_stock_symbol (strip (get_text c2)));
      cbn; by rewrite <- ?app_assoc, ?app_nil_r.
Qed.

Lemma validate_turn (element : Tag) (st : list str) :
  (let text := strip (get_text element) in
   when (_is_valid_stock_symbol text) (append text)) st
  = (inr tt, st ++ List.filter _is_valid_stock_symbol [text_of element]).
Proof.
  unfold text_of. cbn. destruct (_is_valid_stock_symbol _); cbn; [done|].
  by rewrite app_nil_r.
Qed.

Lemma flat_map_filter_one {A} (p : str -> bool) (f : A -> str) (l : list A) :
  flat_map (fun x => List.filter p [f x]) l = List.filter p (List.map f l).
Proof.
  induction l as [|x l IH]; [done|]. cbn [flat_map List.map]. rewrite IH.
  cbn [List.filter]. by destruct (p (f x)).
Qed.

(** X10.  When none of its queries raises, the generic table stage returns
    the validated texts of the first three cells of every row, in order;
    cells after the third are never looked at.  Only when the rows give
    nothing does it turn to the elements with a stock or name class. *)
Theorem tables_first_three_cells (soup : Tag) (rows named : list Tag) :
  select soup (lit "tr") = inr rows ->
  Forall (fun row => answers (select row (lit "td, th"))) rows ->
  select soup stock_name_selector = inr named ->
  let from_rows := flat_map row_candidates rows in
  _extract_from_tables soup =
  if negb (is_nil from_rows) then from_rows
  else List.filter _is_valid_stock_symbol (List.map text_of named).
Proof.
  intros Hrows Hcells Hnamed. cbv zeta.
  unfold _extract_from_tables, collect.
  unfold mbind at 1, M_bind at 1, lift at 1. rewrite Hrows.
  unfold mbind at 1, M_bind at 1.
  rewrite (for_each_spec rows _ row_candidates).
  2:{ intros row st Hin. apply tables_row_turn.
      rewrite List.Forall_forall in Hcells. by apply Hcells. }
  cbn [app]. unfold mbind at 1, M_bind at 1, get_stocks at 1.
  destruct (flat_map row_candidates rows) as [|x found] eqn:Hfound;
    [|reflexivity].
  cbn [is_nil when negb]. unfold mbind, M_bind, lift. rewrite Hnamed.
  rewrite (for_each_spec named _
             (fun element => List.filter _is_valid_stock_symbol [text_of element]))
    by (intros element st _; apply validate_turn).
  cbn [app snd]. apply flat_map_filter_one.
Qed.

Lemma tables_first_three_cells_witness :
  _extract_from_tables
    (table_of [ row_of [lit "1"; lit "INFY"; lit "Infosys Ltd"; lit "WIPRO"];
                row_of [lit "TCS"] ])
  = [lit "INFY"; lit "Infosys Ltd"; lit "TCS"].
Proof.
  apply (tables_first_three_cells
           (table_of [ row_of [lit "1"; lit "INFY"; lit "Infosys Ltd"; lit "WIPRO"];
                       row_of [lit "TCS"] ])
           [ row_of [lit "1"; lit "INFY"; lit "Infosys Ltd"; lit "WIPRO"];
             row_of [lit "TCS"] ] []).
  - reflexivity.
  - repeat constructor; by eexists.
  - reflexivity.
Defined.

(** ** More on the extraction as a whole *)

Section Stages.

Variable P : str -> Prop.
Hypothesis validated_P : forall t, _is_valid_stock_symbol (strip t) = true -> P (strip t).

Lemma tables_keeps (soup : Tag) : Forall P (_extract_from_tables soup).
Proof.
  unfold _extract_from_tables. apply keeps_collect.
  apply keeps_bind; [apply keeps_lift|intros table_rows].
  apply keeps_bind.
  { apply keeps_for_each. intros row.
    apply keeps_bind; [apply keeps_lift|intros [|cell0 cells]]; [apply keeps_ret|].
    apply keeps_bind.
    - apply keeps_when. intros Hv. by apply keeps_append, validated_P.
    - intros _. apply keeps_for_each. intros i.
      destruct (_ !! i); [|apply keeps_lift].
      apply keeps_when. intros Hv. by apply keeps_append, validated_P. }
  intros _. apply keeps_bind; [apply keeps_get|intros stocks].
  apply keeps_when. intros _.
  apply keeps_bind; [apply keeps_lift|intros stock_name_elements].
  apply keeps_for_each. intros element.
  apply keeps_when. intros Hv. by apply keeps_append, validated_P.
Qed.

Lemma profile_loop_keeps (soup : Tag) (selectors : list str) :
  keeps P (profile_loop soup selectors).
Proof.
  induction selectors as [|selector rest IH]; cbn [profile_loop].
  - apply keeps_ret.
  - apply keeps_bind.
    + apply keeps_try_except; [|intros ?; apply keeps_ret].
      apply keeps_bind; [apply keeps_lift|intros elements].
      apply keeps_bind; [|intros ?; apply keeps_bind;
                                   [apply keeps_get|intros ?; apply keeps_ret]].
      apply keeps_for_each. intros element. apply keeps_when. intros Hv.
      by apply keeps_append, validated_P.
    + intros [|]; [apply keeps_ret|apply IH].
Qed.

Lemma sound_lift {A} (r : exn + A) : sound P (fun a => r = inr a) (lift r).
Proof. intros st Hst. split; [done|]. simpl. by destruct r. Qed.

End Stages.

Section TrySound.

Variable urlparse_hostname : str -> exn + option str.
Variable lower : str -> str.
Variable P : str -> Prop.
Hypothesis validated_P : forall t, _is_valid_stock_symbol (strip t) = true -> P (strip t).

(** The [try] block returns identifiers with [P], each once, as soon as
    the validated texts have [P] and so have the names of the site-special
    stage wherever that stage runs. *)
Lemma get_stocks_try_sound (w : World) (self : Monitor) (url : str) :
  (forall response soup domain,
     requests_get w url = inr response ->
     soup_of response = inr soup ->
     hostname_lower urlparse_hostname lower url = inr domain ->
     contains (lit "scanx.trade") domain = true ->
     Forall P (_extract_from_scanx soup)) ->
  sound P (fun found => Forall P found /\ NoDup found)
    (get_stocks_try urlparse_hostname lower w self url).
Proof.
  intros Hscanx. unfold get_stocks_try.
  eapply sound_bind; [apply sound_lift|intros response Hresponse].
  destruct (status_code response =? 200)%Z;
    [|apply sound_ret; split; constructor].
  eapply sound_bind; [apply sound_lift|intros soup Hsoup].
  eapply sound_bind; [apply sound_lift|intros domain Hdomain].
  apply (sound_bind _ (fun early => match early with
                                    | Some found => Forall P found /\ NoDup found
                                    | None => True
                                    end)).
  - destruct (contains (lit "scanx.trade") domain) eqn:Hc; [|by apply sound_ret].
    eapply sound_bind;
      [apply sound_keeps, keeps_extend, (Hscanx response soup domain); done
      |intros _ _].
    eapply sound_bind; [apply sound_get|intros stocks Hstocks].
    apply sound_ret. destruct (is_nil stocks); [done|].
    split; [by apply dedup_Forall|apply NoDup_dedup].
  - intros [found|] Hearly; [by apply sound_ret|].
    eapply sound_bind; [apply sound_keeps, keeps_lift|intros selectors _].
    eapply sound_bind;
      [apply sound_keeps, profile_loop_keeps, validated_P|intros _ _].
    eapply sound_bind; [apply sound_get|intros stocks _].
    eapply sound_bind.
    { apply sound_keeps, keeps_when. intros _.
      apply keeps_extend, tables_keeps, validated_P. }
    intros _ _.
    eapply sound_bind; [apply sound_get|intros stocks' Hstocks'].
    apply sound_ret. split; [by apply dedup_Forall|apply NoDup_dedup].
Qed.

End TrySound.

Section RaisesOnly.

Variable E : exn -> Prop.

Lemma raises_only_ret {A} (a : A) : raises_only E (mret a : M A).
Proof. intros st e He. discriminate He. Qed.

Lemma raises_only_lift {A} (r : exn + A) :
  (forall e, r = inl e -> E e) -> raises_only E (lift r).
Proof. intros Hr st e He. simpl in He. by apply Hr. Qed.

Lemma raises_only_get : raises_only E get_stocks.
Proof. intros st e He. discriminate He. Qed.

Lemma raises_only_extend (xs : list str) : raises_only E (extend xs).
Proof. intros st e He. discriminate He. Qed.

Lemma raises_only_bind {A B} (m : M A) (f : A -> M B) :
  raises_only E m -> (forall a, raises_only E (f a)) ->
  raises_only E (m ≫= f).
Proof.
  intros Hm Hf st e. unfold mbind, M_bind.
  specialize (Hm st). destruct (m st) as [[e'|a] st']; simpl in *.
  - intros [= <-]. by apply Hm.
  - apply Hf.
Qed.

Lemma raises_only_when (b : bool) (m : M unit) :
  raises_only E m -> raises_only E (when b m).
Proof. destruct b; [done|]. intros _. apply raises_only_ret. Qed.

End RaisesOnly.

(** The profile loop catches whatever its queries raise. *)
Lemma profile_loop_returns (soup : Tag) (selectors : list str) :
  forall st, fst (profile_loop soup selectors st) = inr tt.
Proof.
  induction selectors as [|selector rest IH]; intros st; [done|].
  rewrite profile_loop_turn.
  destruct (select soup selector); [apply IH|].
  destruct (is_nil _); [apply IH|done].
Qed.

(** An error leaving the [try] block comes from the request, from the
    parser or from reading the host name. *)
Lemma get_stocks_try_raises (urlparse_hostname : str -> exn + option str)
    (lower : str -> str) (w : World) (self : Monitor) (url : str) (e : exn) :
  fst (get_stocks_try urlparse_hostname lower w self url []) = inl e ->
  fetch_error w url = Some e
  \/ hostname_lower urlparse_hostname lower url = inl e.
Proof.
  unfold get_stocks_try, fetch_error.
  unfold mbind at 1, M_bind at 1, lift at 1.
  destruct (requests_get w url) as [e'|response]; [intros [= <-]; by left|].
  destruct (status_code response =? 200)%Z; [|discriminate].
  unfold mbind at 1, M_bind at 1, lift at 1.
  destruct (soup_of response) as [e'|soup]; [intros [= <-]; by left|].
  unfold mbind at 1, M_bind at 1, lift at 1.
  destruct (hostname_lower urlparse_hostname lower url) as [e'|domain] eqn:Hdom;
    [intros [= <-]; by right|].
  intros He. exfalso. revert He.
  match goal with
  | |- fst (?m []) = inl e -> False =>
      assert (raises_only (fun _ => False) m) as Hnone; [|apply (Hnone [] e)]
  end.
  apply raises_only_bind.
  - destruct (contains _ domain); [|apply raises_only_ret].
    apply raises_only_bind; [apply raises_only_extend|intros _].
    apply raises_only_bind; [apply raises_only_get|intros stocks].
    apply raises_only_ret.
  - intros [found|]; [apply raises_only_ret|].
    apply raises_only_bind.
    { apply raises_only_lift. unfold _get_default_selectors. rewrite Hdom.
      intros e0. by destruct (first_profile _ _). }
    intros selectors. apply raises_only_bind.
    { intros st e0. by rewrite profile_loop_returns. }
    intros _. apply raises_only_bind; [apply raises_only_get|intros stocks].
    apply raises_only_bind;
      [apply raises_only_when, raises_only_extend|intros _].
    apply raises_only_bind; [apply raises_only_get|intros stocks'].
    apply raises_only_ret.
Qed.

Lemma validated_nonempty (t : str) :
  _is_valid_stock_symbol t = true -> t <> [].
Proof. by intros Hv ->. Qed.

Lemma profile_loop_all_empty (soup : Tag) (selectors : list str) :
  (forall p, In p selectors -> accepted soup p = []) ->
  profile_loop soup selectors [] = (inr tt, []).
Proof.
  induction selectors as [|selector rest IH]; intros Hall; [done|].
  rewrite profile_loop_turn, (Hall selector) by (by left). cbn [app is_nil].
  rewrite IH by (intros p Hp; apply Hall; by right).
  by destruct (select soup selector).
Qed.

Section Extraction.

Variable urlparse_hostname : str -> exn + option str.
Variable lower : str -> str.

(** X11.  Whatever the page, the source and the stage that produced it,
    an identifier returned by the extraction is never empty and never has
    whitespace at either end; this holds for the fallback request too. *)
Theorem extraction_identifiers_clean (w : World) (self : Monitor) (url : str) :
  Forall (fun x => strip x = x /\ x <> [])
    (get_stocks_from_url urlparse_hostname lower w self url).
Proof.
  assert (forall soup,
            Forall (fun x => strip x = x /\ x <> []) (_extract_from_scanx soup))
    as Hscanx.
  { intros soup. eapply Forall_impl; [apply scanx_names_inv|].
    intros x (Hn & _ & Hl). split; [by apply normalized_trimmed|].
    intros ->. simpl in Hl. lia. }
  unfold get_stocks_from_url.
  destruct (get_stocks_try_sound urlparse_hostname lower
              (fun x => strip x = x /\ x <> [])
              (fun t Hv => conj (strip_fix t) (validated_nonempty _ Hv))
              w self url (fun _ soup _ _ _ _ _ => Hscanx soup) [])
    as [_ Hfound]; [constructor|].
  destruct (fst (get_stocks_try urlparse_hostname lower w self url []))
    as [e|found]; [|by destruct Hfound].
  destruct (_ || _); [|constructor].
  unfold _get_stocks_with_fallback.
  destruct (requests_get_fallback w url) as [e'|response]; [constructor|].
  destruct (status_code response =? 200)%Z; [|constructor].
  destruct (soup_of response); [constructor|apply Hscanx].
Qed.

(** X12.  On a source whose host name does not contain scanx.trade, and
    unless a request or parse error sends the handler to the fallback,
    every identifier returned has passed the validator and is returned
    once. *)
Theorem generic_source_identifiers_validated
    (w : World) (self : Monitor) (url domain : str) :
  hostname_lower urlparse_hostname lower url = inr domain ->
  contains (lit "scanx.trade") domain = false ->
  (forall e, fetch_error w url = Some e -> mentions_cors e = false) ->
  Forall (fun x => _is_valid_stock_symbol x = true)
    (get_stocks_from_url urlparse_hostname lower w self url)
  /\ NoDup (get_stocks_from_url urlparse_hostname lower w self url).
Proof.
  intros Hdom Hgeneric Hfetch. unfold get_stocks_from_url.
  destruct (get_stocks_try_sound urlparse_hostname lower
              (fun x => _is_valid_stock_symbol x = true)
              (fun t Hv => Hv) w self url) with (st := @nil str)
    as [_ Hfound]; [|constructor|].
  { intros response soup domain' _ _ Hdom' Hc. congruence. }
  destruct (fst (get_stocks_try urlparse_hostname lower w self url []))
    as [e|found] eqn:Htry; [|done].
  apply get_stocks_try_raises in Htry as [He|He]; [|congruence].
  apply Hfetch in He. unfold mentions_cors in He. rewrite He.
  split; constructor.
Qed.

(** X13.  A request that fails with an error the handler does not send to
    the fallback, or that is answered with a status other than 200, gives
    the empty list, and the diff then leaves the monitor as it was. *)
Theorem failed_fetch_yields_nothing (w : World) (self : Monitor) (url : str) :
  match requests_get w url with
  | inl e => mentions_cors e = false
  | inr response => status_code response <> 200%Z
  end ->
  get_stocks_from_url urlparse_hostname lower w self url = []
  /\ get_new_stocks_for_url urlparse_hostname lower w self url = ([], self).
Proof.
  intros Hfail.
  assert (get_stocks_from_url urlparse_hostname lower w self url = []) as Hnone.
  { unfold get_stocks_from_url, get_stocks_try, mbind, M_bind, lift.
    destruct (requests_get w url) as [e|response].
    - cbn [fst]. unfold mentions_cors in Hfail. by rewrite Hfail.
    - apply Z.eqb_neq in Hfail. by rewrite Hfail. }
  split; [done|]. by apply diff_of_empty_extraction.
Qed.

(** X14.  On a scanx.trade source, names found by the site-special stage
    are the whole result: the selector profile and the table stage are not
    consulted. *)
Theorem scanx_stage_short_circuits
    (w : World) (self : Monitor) (url : str) (response : Response)
    (soup : Tag) (domain : str) :
  requests_get w url = inr response ->
  status_code response = 200%Z ->
  soup_of response = inr soup ->
  hostname_lower urlparse_hostname lower url = inr domain ->
  contains (lit "scanx.trade") domain = true ->
  _extract_from_scanx soup <> [] ->
  get_stocks_from_url urlparse_hostname lower w self url
  = dedup (_extract_from_scanx soup).
Proof.
  intros Hget Hstatus Hsoup Hdom Hc Hnames.
  unfold get_stocks_from_url, get_stocks_try.
  unfold mbind, M_bind, lift. rewrite Hget, Hstatus.
  change (200 =? 200)%Z with true. cbv beta iota.
  rewrite Hsoup, Hdom, Hc. unfold extend, get_stocks. cbn [app].
  apply is_nil_false in Hnames. by rewrite Hnames.
Qed.

(** X15.  When the site-special stage gives nothing or does not apply and
    no selector of the resolved profile yields an accepted candidate, the
    result is what the generic table stage finds, each identifier once. *)
Theorem table_stage_is_the_fallback
    (w : World) (self : Monitor) (url : str) (response : Response)
    (soup : Tag) (domain : str) (selectors : list str) :
  requests_get w url = inr response ->
  status_code response = 200%Z ->
  soup_of response = inr soup ->
  hostname_lower urlparse_hostname lower url = inr domain ->
  contains (lit "scanx.trade") domain = false \/ _extract_from_scanx soup = [] ->
  _get_default_selectors urlparse_hostname lower self url = inr selectors ->
  (forall p, In p selectors -> accepted soup p = []) ->
  get_stocks_from_url urlparse_hostname lower w self url
  = dedup (_extract_from_tables soup).
Proof.
  intros Hget Hstatus Hsoup Hdom Hscanx Hsel Hall.
  assert (_extract_from_scanx soup = []
          \/ contains (lit "scanx.trade") domain = false) as Hstage by tauto.
  unfold get_stocks_from_url, get_stocks_try.
  unfold mbind, M_bind, lift. rewrite Hget, Hstatus.
  change (200 =? 200)%Z with true. cbv beta iota.
  rewrite Hsoup, Hdom.
  destruct (contains (lit "scanx.trade") domain) eqn:Hc.
  - destruct Hstage as [Hnone|?]; [|done].
    unfold extend at 1, get_stocks at 1. rewrite Hnone. cbn [app is_nil fst snd].
    unfold mret at 1, M_ret at 1. cbv beta iota.
    rewrite Hsel, (profile_loop_all_empty soup selectors Hall).
    reflexivity.
  - unfold mret at 1, M_ret at 1. cbv beta iota.
    rewrite Hsel, (profile_loop_all_empty soup selectors Hall).
    reflexivity.
Qed.

End Extraction.

Lemma generic_source_identifiers_validated_witness :
  let w :=
    serving (page (lit ".ticker") [lit "AAPL"; lit "aapl"; lit "AAPL"]) morning in
  Forall (fun x => _is_valid_stock_symbol x = true)
    (get_stocks_from_url hostname_of ascii_lower w (init [example_url] 300) example_url)
  /\ NoDup
       (get_stocks_from_url hostname_of ascii_lower w (init [example_url] 300)
          example_url).
Proof.
  intros w.
  apply (generic_source_identifiers_validated hostname_of ascii_lower
           w (init [example_url] 300) example_url (lit "example.com")).
  - reflexivity.
  - reflexivity.
  - intros e He. vm_compute in He. discriminate He.
Defined.

Lemma failed_fetch_yields_nothing_witness :
  let self := with_store {[ example_url := {[ lit "AAPL" ]} ]} in
  get_stocks_from_url hostname_of ascii_lower (offline morning) self example_url = []
  /\ get_new_stocks_for_url hostname_of ascii_lower (offline morning) self example_url
     = ([], self).
Proof.
  intros self.
  apply (failed_fetch_yields_nothing hostname_of ascii_lower
           (offline morning) self example_url).
  reflexivity.
Defined.

Lemma scanx_stage_short_circuits_witness :
  let soup := page_of [ (stock_name_selector, [lit "Tata Motors Ltd"]);
                        (lit "td", [lit "TCS"]) ] in
  get_stocks_from_url hostname_of ascii_lower (serving soup morning)
    (init [scanx_url] 300) scanx_url
  = dedup (_extract_from_scanx soup).
Proof.
  intros soup.
  apply (scanx_stage_short_circuits hostname_of ascii_lower
           (serving soup morning) (init [scanx_url] 300) scanx_url
           (mkResponse 200 (inr soup)) soup (lit "scanx.trade")).
  - reflexivity.
  - reflexivity.
  - reflexivity.
  - reflexivity.
  - reflexivity.
  - vm_compute. discriminate.
Defined.

Lemma table_stage_is_the_fallback_witness :
  let soup := table_of [row_of [lit "1"; lit "INFY"]; row_of [lit "2"; lit "TCS"]] in
  get_stocks_from_url hostname_of ascii_lower (serving soup morning)
    (init [example_url] 300) example_url
  = dedup (_extract_from_tables soup).
Proof.
  intros soup.
  apply (table_stage_is_the_fallback hostname_of ascii_lower
           (serving soup morning) (init [example_url] 300) example_url
           (mkResponse 200 (inr soup)) soup (lit "example.com")
           [ lit ".stock-symbol"; lit ".ticker"; lit ".symbol";
             lit "[data-symbol]"; lit ".stock"; lit ".ticker-symbol" ]).
  - reflexivity.
  - reflexivity.
  - reflexivity.
  - reflexivity.
  - left. reflexivity.
  - reflexivity.
  - intros p Hp. simpl in Hp.
    repeat (destruct Hp as [<-|Hp]; [reflexivity|]). destruct Hp.
Defined.

(** ** More on the differ *)

Section DifferMore.

Variable urlparse_hostname : str -> exn + option str.
Variable lower : str -> str.

(** The extraction reads the selector table of the monitor and nothing
    else of it. *)
Lemma extraction_reads_selectors (w : World) (s1 s2 : Monitor) (url : str) :
  default_selectors s1 = default_selectors s2 ->
  get_stocks_from_url urlparse_hostname lower w s1 url
  = get_stocks_from_url urlparse_hostname lower w s2 url.
Proof.
  intros Hsel.
  unfold get_stocks_from_url, get_stocks_try, _get_default_selectors.
  by rewrite Hsel.
Qed.

Lemma diff_keeps_selectors (w : World) (self : Monitor) (url : str) :
  default_selectors (snd (get_new_stocks_for_url urlparse_hostname lower w self url))
  = default_selectors self
  /\ screener_urls (snd (get_new_stocks_for_url urlparse_hostname lower w self url))
     = screener_urls self.
Proof. unfold get_new_stocks_for_url. cbn [snd]. by case_decide. Qed.

Lemma diff_snapshot (w : World) (self : Monitor) (url : str) :
  url_stocks (snd (get_new_stocks_for_url urlparse_hostname lower w self url)) !! url
  = if is_nil (get_stocks_from_url urlparse_hostname lower w self url)
    then url_stocks self !! url
    else Some (list_to_set (get_stocks_from_url urlparse_hostname lower w self url)).
Proof.
  unfold get_new_stocks_for_url. cbn [snd].
  destruct (get_stocks_from_url urlparse_hostname lower w self url) as [|x l].
  - by rewrite decide_True.
  - rewrite decide_False by (simpl; set_solver).
    cbn [is_nil]. apply lookup_insert_eq.
Qed.

Lemma diff_other_snapshots (w : World) (self : Monitor) (url url' : str) :
  url' <> url ->
  url_stocks (snd (get_new_stocks_for_url urlparse_hostname lower w self url)) !! url'
  = url_stocks self !! url'.
Proof.
  intros Hne. unfold get_new_stocks_for_url. cbn [snd].
  case_decide; [done|]. by apply lookup_insert_ne.
Qed.

(** X16.  After a pass that extracted something, the next pass reports
    exactly what is listed now and was not listed then: an identifier that
    stays listed is not reported again, and whatever the store held before
    the earlier pass plays no part. *)
Theorem consecutive_passes (w1 w2 : World) (self : Monitor) (url : str) :
  get_stocks_from_url urlparse_hostname lower w1 self url <> [] ->
  let after1 := snd (get_new_stocks_for_url urlparse_hostname lower w1 self url) in
  (list_to_set (fst (get_new_stocks_for_url urlparse_hostname lower w2 after1 url))
     : gset str)
  = list_to_set (get_stocks_from_url urlparse_hostname lower w2 self url)
    ∖ list_to_set (get_stocks_from_url urlparse_hostname lower w1 self url).
Proof.
  intros Hcur after1.
  assert (get_stocks_from_url urlparse_hostname lower w2 after1 url
          = get_stocks_from_url urlparse_hostname lower w2 self url) as Hsame.
  { apply extraction_reads_selectors, diff_keeps_selectors. }
  assert (url_stocks after1 !! url
          = Some (list_to_set
                    (get_stocks_from_url urlparse_hostname lower w1 self url)))
    as Hstore.
  { subst after1. rewrite diff_snapshot. by apply is_nil_false in Hcur as ->. }
  unfold get_new_stocks_for_url at 1. cbn [fst].
  rewrite list_to_set_elements_L, Hsame, Hstore. done.
Qed.

(** X17.  After any number of passes over a source, its snapshot is the
    last extraction that was not empty, and the snapshot it started with
    when every extraction was empty. *)
Theorem snapshot_is_last_nonempty_extraction
    (ws : list World) (self : Monitor) (url : str) :
  url_stocks (run_passes urlparse_hostname lower ws self url) !! url
  = last_nonempty
      (List.map (fun w => get_stocks_from_url urlparse_hostname lower w self url) ws)
      (url_stocks self !! url).
Proof.
  revert self. induction ws as [|w ws IH]; intros self; [done|].
  cbn [run_passes List.map last_nonempty]. rewrite IH, diff_snapshot.
  f_equal. apply map_ext. intros w'.
  apply extraction_reads_selectors, diff_keeps_selectors.
Qed.

End DifferMore.

Lemma consecutive_passes_witness :
  let w1 := serving (page (lit ".ticker") [lit "AAPL"; lit "MSFT"]) morning in
  let w2 := serving (page (lit ".ticker") [lit "AAPL"; lit "GOOG"]) later in
  let self := with_store {[ example_url := {[ lit "GOOG" ]} ]} in
  get_stocks_from_url hostname_of ascii_lower w1 self example_url <> []
  /\ (list_to_set
        (fst (get_new_stocks_for_url hostname_of ascii_lower w2
                (snd (get_new_stocks_for_url hostname_of ascii_lower w1 self
                        example_url))
                example_url)) : gset str)
     = list_to_set (get_stocks_from_url hostname_of ascii_lower w2 self example_url)
       ∖ list_to_set (get_stocks_from_url hostname_of ascii_lower w1 self example_url).
Proof.
  intros w1 w2 self.
  assert (get_stocks_from_url hostname_of ascii_lower w1 self example_url <> [])
    as H by (vm_compute; discriminate).
  split; [exact H|].
  exact (consecutive_passes hostname_of ascii_lower w1 w2 self example_url H).
Defined.

(** GOOG was in the store before, dropped out, and is reported again. *)
Example reappearance_is_reported :
  let w1 := serving (page (lit ".ticker") [lit "AAPL"; lit "MSFT"]) morning in
  let w2 := serving (page (lit ".ticker") [lit "AAPL"; lit "GOOG"]) later in
  let self := with_store {[ example_url := {[ lit "GOOG" ]} ]} in
  fst (get_new_stocks_for_url hostname_of ascii_lower w2
         (snd (get_new_stocks_for_url hostname_of ascii_lower w1 self example_url))
         example_url)
  = [lit "GOOG"].
Proof. vm_compute. reflexivity. Qed.

(** ** A fresh monitor *)

Lemma init_store_lookup (urls : list str) (u : str) :
  forall m : gmap str (gset str),
    fold_left (fun m url => <[url := ∅]> m) urls m !! u
    = if decide (u ∈ urls) then Some ∅ else m !! u.
Proof.
  induction urls as [|url urls IH]; intros m; cbn [fold_left].
  - rewrite decide_False; [done|]. apply not_elem_of_nil.
  - rewrite IH. destruct (decide (u ∈ urls)) as [Hin|Hout].
    + rewrite decide_True; [done|]. by right.
    + destruct (decide (u = url)) as [->|Hne].
      * rewrite decide_True by (by left). apply lookup_insert_eq.
      * rewrite decide_False.
        -- by apply lookup_insert_ne.
        -- rewrite elem_of_cons. tauto.
Qed.

(** X18.  A monitor fresh from [__init__] holds an empty snapshot for each
    configured URL and none for any other, and its first diff on any URL
    reports every identifier the extraction returns. *)
Theorem fresh_monitor_reports_everything
    (urlparse_hostname : str -> exn + option str) (lower : str -> str)
    (urls : list str) (interval : Z) :
  (forall url, url ∈ urls -> url_stocks (init urls interval) !! url = Some ∅)
  /\ (forall url, url ∉ urls -> url_stocks (init urls interval) !! url = None)
  /\ (forall (w : World) (url : str),
        (list_to_set
           (fst (get_new_stocks_for_url urlparse_hostname lower w
                   (init urls interval) url)) : gset str)
        = list_to_set
            (get_stocks_from_url urlparse_hostname lower w (init urls interval) url)).
Proof.
  assert (forall url,
            default ∅ (url_stocks (init urls interval) !! url) = (∅ : gset str))
    as Hempty.
  { intros url. unfold init. cbn [url_stocks]. rewrite init_store_lookup.
    by case_decide. }
  split; [|split].
  - intros url Hin. unfold init. cbn [url_stocks].
    by rewrite init_store_lookup, decide_True.
  - intros url Hout. unfold init. cbn [url_stocks].
    by rewrite init_store_lookup, decide_False.
  - intros w url. unfold get_new_stocks_for_url. cbn [fst].
    rewrite list_to_set_elements_L, Hempty. apply difference_empty_L.
Qed.

Lemma fresh_monitor_reports_everything_witness :
  example_url ∈ [example_url; scanx_url]
  /\ url_stocks (init [example_url; scanx_url] 300) !! example_url = Some ∅.
Proof.
  assert (example_url ∈ [example_url; scanx_url]) as H by (by left).
  split; [exact H|].
  exact (proj1 (fresh_monitor_reports_everything hostname_of ascii_lower
                  [example_url; scanx_url] 300) example_url H).
Defined.

(** ** The screening pass *)

Section Screening.

Variable urlparse_hostname : str -> exn + option str.
Variable lower : str -> str.

Lemma dict_set_fresh {V} (k : str) (v : V) (d : list (str * V)) :
  k ∉ List.map fst d -> dict_set k v d = d ++ [(k, v)].
Proof.
  induction d as [|[k' v'] d IH]; intros Hk; [done|]. simpl in *.
  rewrite not_elem_of_cons in Hk. destruct Hk as [Hne Hk].
  rewrite decide_False by done. by rewrite IH.
Qed.

Lemma diff_local (w : World) (s1 s2 : Monitor) (url : str) :
  default_selectors s1 = default_selectors s2 ->
  url_stocks s1 !! url = url_stocks s2 !! url ->
  fst (get_new_stocks_for_url urlparse_hostname lower w s1 url)
  = fst (get_new_stocks_for_url urlparse_hostname lower w s2 url)
  /\ url_stocks (snd (get_new_stocks_for_url urlparse_hostname lower w s1 url)) !! url
     = url_stocks (snd (get_new_stocks_for_url urlparse_hostname lower w s2 url)) !! url.
Proof.
  intros Hsel Hstore. split.
  - unfold get_new_stocks_for_url. cbn [fst].
    by rewrite (extraction_reads_selectors _ _ w s1 s2 url Hsel), Hstore.
  - by rewrite !diff_snapshot,
       (extraction_reads_selectors _ _ w s1 s2 url Hsel), Hstore.
Qed.

Lemma screening_loop_spec (ws : nat -> World) (urls : list str) :
  forall (i : nat) (self : Monitor) (acc : list (str * list str)),
    NoDup urls ->
    (forall u, u ∈ urls -> u ∉ List.map fst acc) ->
    let r := screening_loop urlparse_hostname lower ws i urls self acc in
    fst r
    = acc ++ imap (fun k url =>
                     (url, fst (get_new_stocks_for_url urlparse_hostname lower
                                  (ws (i + k)%nat) self url))) urls
    /\ (forall k url,
          urls !! k = Some url ->
          url_stocks (snd r) !! url
          = url_stocks (snd (get_new_stocks_for_url urlparse_hostname lower
                               (ws (i + k)%nat) self url)) !! url)
    /\ (forall u, u ∉ urls -> url_stocks (snd r) !! u = url_stocks self !! u)
    /\ default_selectors (snd r) = default_selectors self
    /\ screener_urls (snd r) = screener_urls self.
Proof.
  induction urls as [|url rest IH]; intros i self acc Hnd Hacc r.
  - subst r. simpl. rewrite app_nil_r. repeat split; try done.
  - subst r. cbn [screening_loop].
    destruct (get_new_stocks_for_url urlparse_hostname lower (ws i) self url)
      as [new_stocks self'] eqn:Hturn.
    assert (new_stocks
            = fst (get_new_stocks_for_url urlparse_hostname lower (ws i) self url))
      as Hnew by (by rewrite Hturn).
    assert (self'
            = snd (get_new_stocks_for_url urlparse_hostname lower (ws i) self url))
      as Hself' by (by rewrite Hturn).
    apply NoDup_cons in Hnd as [Hfresh Hnd].
    rewrite dict_set_fresh by (apply Hacc; by left).
    destruct (diff_keeps_selectors urlparse_hostname lower (ws i) self url)
      as [Hsel Hurls]. rewrite <- Hself' in Hsel, Hurls.
    assert (forall u, u <> url -> url_stocks self' !! u = url_stocks self !! u)
      as Hother.
    { intros u Hne. rewrite Hself'. by apply diff_other_snapshots. }
    specialize (IH (S i) self' (acc ++ [(url, new_stocks)]) Hnd).
    destruct IH as (Hfst & Hlisted & Houtside & Hsel' & Hurls').
    { intros u Hu. rewrite map_app, elem_of_app. intros [Hin|Hin].
      - apply (Hacc u); [by right|done].
      - simpl in Hin. apply list_elem_of_singleton in Hin. subst u. done. }
    assert (forall k u, rest !! k = Some u -> u <> url) as Hrest.
    { intros k u Hk ->. apply Hfresh. by eapply list_elem_of_lookup_2. }
    split; [|split; [|split; [|split]]].
    + rewrite Hfst, <- app_assoc. cbn [app imap]. f_equal.
      rewrite Nat.add_0_r, <- Hnew. f_equal.
      apply imap_ext. intros k u Hk. cbn. f_equal.
      replace (i + S k)%nat with (S i + k)%nat by lia.
      apply diff_local; [done|]. apply Hother. by eapply Hrest.
    + intros [|k] u Hk.
      * injection Hk as <-. rewrite Nat.add_0_r, <- Hself'.
        rewrite Houtside by done. done.
      * cbn in Hk. rewrite (Hlisted k u Hk).
        replace (i + S k)%nat with (S i + k)%nat by lia.
        apply diff_local; [done|]. apply Hother. by eapply Hrest.
    + intros u Hu. rewrite not_elem_of_cons in Hu. destruct Hu as [Hne Hu].
      rewrite Houtside by done. by apply Hother.
    + congruence.
    + congruence.
Qed.

(** X19.  In a pass over distinct URLs every source is handled on its
    own: the pass reports, in the order of the configuration, what the diff
    of each source reports when run alone on the monitor as it was before
    the pass; it leaves each listed snapshot as that diff alone would, and
    touches no snapshot of a URL that is not listed. *)
Theorem screening_pass_sources_independent (ws : nat -> World) (self : Monitor) :
  NoDup (screener_urls self) ->
  let r := perform_stock_screening_for_all_urls urlparse_hostname lower ws self in
  fst r
  = imap (fun i url =>
            (url, fst (get_new_stocks_for_url urlparse_hostname lower
                         (ws i) self url))) (screener_urls self)
  /\ (forall i url,
        screener_urls self !! i = Some url ->
        url_stocks (snd r) !! url
        = url_stocks (snd (get_new_stocks_for_url urlparse_hostname lower
                             (ws i) self url)) !! url)
  /\ (forall u, u ∉ screener_urls self ->
                url_stocks (snd r) !! u = url_stocks self !! u).
Proof.
  intros Hnd r. subst r. unfold perform_stock_screening_for_all_urls.
  destruct (screening_loop_spec ws (screener_urls self) 0 self [] Hnd)
    as (Hfst & Hlisted & Houtside & _).
  { intros u _. apply not_elem_of_nil. }
  split; [exact Hfst|]. split; [exact Hlisted|exact Houtside].
Qed.

(** X20.  A URL listed twice is one key of the report: when both visits
    of a pass find the page unchanged, the second visit finds nothing new
    and its empty list replaces what the first visit reported. *)
Theorem duplicate_url_loses_report (ws : nat -> World) (self : Monitor) (url : str) :
  screener_urls self = [url; url] ->
  get_stocks_from_url urlparse_hostname lower (ws 0%nat) self url <> [] ->
  get_stocks_from_url urlparse_hostname lower (ws 1%nat) self url
  = get_stocks_from_url urlparse_hostname lower (ws 0%nat) self url ->
  fst (perform_stock_screening_for_all_urls urlparse_hostname lower ws self)
  = [(url, [])].
Proof.
  intros Hurls Hcur Hsame.
  unfold perform_stock_screening_for_all_urls. rewrite Hurls.
  cbn [screening_loop].
  destruct (get_new_stocks_for_url urlparse_hostname lower (ws 0%nat) self url)
    as [new1 self1] eqn:H1.
  assert (self1
          = snd (get_new_stocks_for_url urlparse_hostname lower (ws 0%nat) self url))
    as Hself1 by (by rewrite H1).
  destruct (get_new_stocks_for_url urlparse_hostname lower (ws 1%nat) self1 url)
    as [new2 self2] eqn:H2.
  assert (new2 = []) as ->.
  { assert (new2 = fst (get_new_stocks_for_url urlparse_hostname lower
                          (ws 1%nat) self1 url)) as -> by (by rewrite H2).
    unfold get_new_stocks_for_url at 1. cbn [fst].
    rewrite (extraction_reads_selectors _ _ (ws 1%nat) self1 self url)
      by (rewrite Hself1; apply diff_keeps_selectors).
    rewrite Hself1, diff_snapshot, Hsame.
    apply is_nil_false in Hcur. rewrite Hcur. cbn [default].
    rewrite difference_diag_L. apply elements_empty. }
  cbn [dict_set fst]. by rewrite decide_True.
Qed.

End Screening.

Lemma screening_pass_sources_independent_witness :
  let ws := fun _ : nat => serving (page (lit ".ticker") [lit "AAPL"]) morning in
  let self := with_store {[ example_url := {[ lit "AAPL" ]} ]} in
  NoDup (screener_urls self)
  /\ fst (perform_stock_screening_for_all_urls hostname_of ascii_lower ws self)
     = imap (fun i url =>
               (url, fst (get_new_stocks_for_url hostname_of ascii_lower
                            (ws i) self url))) (screener_urls self).
Proof.
  intros ws self.
  assert (NoDup (screener_urls self)) as Hnd.
  { apply NoDup_cons. split; [|apply NoDup_singleton].
    intros Hin. apply list_elem_of_singleton in Hin. discriminate Hin. }
  split; [exact Hnd|].
  exact (proj1 (screening_pass_sources_independent hostname_of ascii_lower
                  ws self Hnd)).
Defined.

Lemma duplicate_url_loses_report_witness :
  let ws := fun _ : nat => serving (page (lit ".ticker") [lit "AAPL"]) morning in
  let self := init [example_url; example_url] 300 in
  get_stocks_from_url hostname_of ascii_lower (ws 0%nat) self example_url <> []
  /\ fst (perform_stock_screening_for_all_urls hostname_of ascii_lower ws self)
     = [(example_url, [])].
Proof.
  intros ws self.
  assert (get_stocks_from_url hostname_of ascii_lower (ws 0%nat) self example_url
          <> []) as Hcur by (vm_compute; discriminate).
  split; [exact Hcur|].
  apply (duplicate_url_loses_report hostname_of ascii_lower ws self example_url).
  - reflexivity.
  - exact Hcur.
  - reflexivity.
Defined.

(** ** More on alert formatting *)

Lemma rstrip_closing_newline (s : str) (d : N) :
  isspace d = false -> rstrip (s ++ [d] ++ nl) = s ++ [d].
Proof.
  intros Hd. unfold rstrip, nl. rewrite !rev_app_distr. simpl.
  rewrite Hd. simpl. by rewrite rev_involutive.
Qed.

(** Trimming a text framed by the opening and the closing newline of the
    template takes away these two and nothing of what lies between. *)
Lemma strip_framed (body : str) :
  strip (nl ++ siren ++ body ++ lit " View Screener</a>" ++ nl)
  = siren ++ body ++ lit " View Screener</a>".
Proof.
  unfold strip. change (lstrip (nl ++ siren ++ body ++ lit " View Screener</a>" ++ nl))
    with (siren ++ body ++ lit " View Screener</a>" ++ nl).
  change (lit " View Screener</a>") with (lit " View Screener</a" ++ [62]).
  replace (siren ++ body ++ (lit " View Screener</a" ++ [62]) ++ nl)
    with ((siren ++ body ++ lit " View Screener</a") ++ [62] ++ nl)
    by (by rewrite <- !app_assoc).
  rewrite rstrip_closing_newline by done. by rewrite <- !app_assoc.
Qed.

Section FormattingMore.

Variable urlparse_hostname : str -> exn + option str.

Lemma format_parsed (w : World) (self : Monitor) (url : str)
    (domain : option str) (new_stocks : list str) :
  urlparse_hostname url = inr domain ->
  format_stock_message urlparse_hostname w self url new_stocks
  = inr (match new_stocks with
         | [stock] => alert_one (now_strftime w) url domain stock
         | _ => alert_many (now_strftime w) url domain new_stocks
         end).
Proof.
  intros Hdom. unfold format_stock_message. rewrite Hdom. f_equal.
  assert (forall head : str,
            strip (nl ++ siren ++ head ++ message_footer w url domain)
            = siren ++ head ++ alert_footer (now_strftime w) url domain) as Hframe.
  { intros head. unfold message_footer, alert_footer.
    pose proof (strip_framed
                  (head ++ globe ++ lit " <b>Source:</b> " ++ fmt_option domain ++ nl
                   ++ clock ++ lit " <b>Detected:</b> " ++ now_strftime w ++ nl
                   ++ nl ++ lit "<a href=" ++ dq ++ url ++ dq ++ lit ">" ++ link))
      as Hs.
    rewrite <- !app_assoc in Hs. exact Hs. }
  destruct new_stocks as [|stock [|stock' rest]].
  - transitivity
      (strip (nl ++ siren
              ++ (lit " <b>" ++ of_Z (Z.of_nat (length (@nil str)))
                  ++ lit " New Stocks Alert!</b>" ++ nl ++ nl
                  ++ chart ++ lit " <b>New Stocks:</b>" ++ nl
                  ++ join nl (List.map (fun stock => bullet ++ lit " " ++ stock)
                                (take 10 (@nil str)))
                  ++ [] ++ nl ++ nl)
              ++ message_footer w url domain)).
    { f_equal; rewrite <- ?app_assoc; reflexivity. }
    rewrite Hframe; unfold alert_many; rewrite <- ?app_assoc; reflexivity.
  - transitivity
      (strip (nl ++ siren
              ++ (lit " <b>New Stock Alert!</b>" ++ nl ++ nl
                  ++ chart ++ lit " <b>Stock:</b> " ++ stock ++ nl)
              ++ message_footer w url domain)).
    { f_equal; rewrite <- ?app_assoc; reflexivity. }
    rewrite Hframe; unfold alert_one; rewrite <- ?app_assoc; reflexivity.
  - transitivity
      (strip (nl ++ siren
              ++ (lit " <b>" ++ of_Z (Z.of_nat (length (stock :: stock' :: rest)))
                  ++ lit " New Stocks Alert!</b>" ++ nl ++ nl
                  ++ chart ++ lit " <b>New Stocks:</b>" ++ nl
                  ++ join nl (List.map (fun stock => bullet ++ lit " " ++ stock)
                                (take 10 (stock :: stock' :: rest)))
                  ++ (if (10 <? length (stock :: stock' :: rest))%nat
                      then nl ++ lit "... and "
                           ++ of_Z (Z.of_nat (length (stock :: stock' :: rest)) - 10)
                           ++ lit " more"
                      else [])
                  ++ nl ++ nl)
              ++ message_footer w url domain)).
    { f_equal; rewrite <- ?app_assoc; reflexivity. }
    rewrite Hframe; unfold alert_many; rewrite <- ?app_assoc; reflexivity.
Qed.

(** X21.  When the URL parses, the alert is the template with the newline
    that opens it and the one that closes it removed, and nothing else:
    trimming never reaches the identifiers or the URL.  One identifier gives
    the singular form; any other number gives the plural form, which lists
    the first ten identifiers in the order given and, beyond ten, counts the
    rest. *)
Theorem alert_text (w : World) (self : Monitor) (url : str)
    (domain : option str) (new_stocks : list str) :
  urlparse_hostname url = inr domain ->
  format_stock_message urlparse_hostname w self url new_stocks
  = inr (match new_stocks with
         | [stock] => alert_one (now_strftime w) url domain stock
         | _ => alert_many (now_strftime w) url domain new_stocks
         end).
Proof. apply format_parsed. Qed.

(** X22.  Formatting fails exactly when parsing the URL fails, and then
    with the error of the parser: the handler parses the URL again and
    meets the same error, so its one-line message is never returned and
    every message that is returned starts with the alert sign. *)
Theorem formatting_fails_with_urlparse (w : World) (self : Monitor) (url : str)
    (new_stocks : list str) :
  (forall e,
     format_stock_message urlparse_hostname w self url new_stocks = inl e
     <-> urlparse_hostname url = inl e)
  /\ (forall text,
        format_stock_message urlparse_hostname w self url new_stocks = inr text ->
        exists rest, text = siren ++ rest).
Proof.
  destruct (urlparse_hostname url) as [e0|domain] eqn:Hparse.
  - assert (format_stock_message urlparse_hostname w self url new_stocks = inl e0)
      as Hfmt by (unfold format_stock_message; by rewrite Hparse).
    rewrite Hfmt. split.
    + intros e. split; intros [= ->]; done.
    + intros text Htext. discriminate Htext.
  - rewrite (format_parsed w self url domain new_stocks Hparse). split.
    + intros e. split; intros He; discriminate He.
    + intros text [= <-]. destruct new_stocks as [|stock [|stock' rest]];
        unfold alert_one, alert_many; eauto.
Qed.

End FormattingMore.

Lemma alert_text_witness :
  format_stock_message hostname_of (offline morning) (init [example_url] 300)
    example_url [lit "TSLA"]
  = inr (alert_one morning example_url (Some (lit "example.com")) (lit "TSLA")).
Proof.
  apply (alert_text hostname_of (offline morning) (init [example_url] 300)
           example_url (Some (lit "example.com")) [lit "TSLA"]).
  reflexivity.
Defined.

Lemma formatting_fails_with_urlparse_witness :
  format_stock_message hostname_of (offline morning) (init [example_url] 300)
    example_url [lit "TSLA"; lit "AAPL"]
  = inr (alert_many morning example_url (Some (lit "example.com"))
           [lit "TSLA"; lit "AAPL"])
  /\ exists rest,
       alert_many morning example_url (Some (lit "example.com"))
         [lit "TSLA"; lit "AAPL"] = siren ++ rest.
Proof.
  assert (format_stock_message hostname_of (offline morning)
            (init [example_url] 300) example_url [lit "TSLA"; lit "AAPL"]
          = inr (alert_many morning example_url (Some (lit "example.com"))
                   [lit "TSLA"; lit "AAPL"])) as H by reflexivity.
  split; [exact H|].
  exact (proj2 (formatting_fails_with_urlparse hostname_of (offline morning)
                  (init [example_url] 300) example_url [lit "TSLA"; lit "AAPL"])
           _ H).
Defined.

(** ** The fallback request *)

Section Fallback.

Variable urlparse_hostname : str -> exn + option str.
Variable lower : str -> str.

(** X23.  When fetching or parsing the page raises an error whose text has
    CORS or ClientException in it, the result is that of the fallback
    request, which runs the site-special stage whatever the host: on this
    path every identifier returned is a name with a space and at least 5
    characters, so a bare ticker symbol is never returned. *)
Theorem fallback_returns_names_only (w : World) (self : Monitor) (url : str)
    (e : exn) :
  fetch_error w url = Some e ->
  mentions_cors e = true ->
  get_stocks_from_url urlparse_hostname lower w self url
  = _get_stocks_with_fallback w url
  /\ Forall (fun name => has_char space name = true /\ (5 <= length name)%nat)
       (get_stocks_from_url urlparse_hostname lower w self url).
Proof.
  intros Hfetch Hcors.
  assert (get_stocks_from_url urlparse_hostname lower w self url
          = _get_stocks_with_fallback w url) as Heq.
  { unfold get_stocks_from_url, get_stocks_try, mbind, M_bind, lift.
    unfold fetch_error in Hfetch. unfold mentions_cors in Hcors.
    destruct (requests_get w url) as [e'|response].
    - injection Hfetch as ->. cbn [fst]. by rewrite Hcors.
    - destruct (status_code response =? 200)%Z; [|discriminate Hfetch].
      destruct (soup_of response) as [e'|soup]; [|discriminate Hfetch].
      injection Hfetch as ->. cbn [fst]. by rewrite Hcors. }
  split; [exact Heq|]. rewrite Heq. unfold _get_stocks_with_fallback.
  destruct (requests_get_fallback w url) as [e'|response]; [constructor|].
  destruct (status_code response =? 200)%Z; [|constructor].
  destruct (soup_of response) as [e'|soup]; [constructor|].
  eapply Forall_impl; [apply scanx_names_inv|]. by intros name (_ & ? & ?).
Qed.

End Fallback.

Import FallbackExample.

Lemma fallback_returns_names_only_witness :
  let soup := page_of [ (lit ".ticker", [lit "AAPL"]);
                        (stock_name_selector, [lit "Apple Inc"; lit "AAPL"]) ] in
  get_stocks_from_url hostname_of ascii_lower (blocked soup morning)
    (init [example_url] 300) example_url
  = _get_stocks_with_fallback (blocked soup morning) example_url
  /\ Forall (fun name => has_char space name = true /\ (5 <= length name)%nat)
       (get_stocks_from_url hostname_of ascii_lower (blocked soup morning)
          (init [example_url] 300) example_url).
Proof.
  intros soup.
  apply (fallback_returns_names_only hostname_of ascii_lower
           (blocked soup morning) (init [example_url] 300) example_url
           (Exception (lit "ClientException: blocked by CORS policy"))).
  - reflexivity.
  - reflexivity.
Defined.

(** ** The configured URLs *)

Lemma split_on_pieces (sep : N) (s : str) :
  Forall (fun piece => has_char sep piece = false) (split_on sep s)
  /\ split_on sep s <> [].
Proof.
  induction s as [|c s [IH Hne]]; simpl.
  - split; [by repeat constructor|done].
  - destruct (N.eqb_spec c sep) as [->|Hc].
    + split; [by constructor|done].
    + destruct (split_on sep s) as [|first rest]; [done|].
      inversion IH as [|? ? Hfirst Hrest]; subst.
      split; [|done]. constructor; [|done].
      unfold has_char in *. cbn [existsb]. rewrite Hfirst, orb_false_r.
      apply N.eqb_neq. congruence.
Qed.

Lemma split_on_whole (sep : N) (s : str) :
  has_char sep s = false -> split_on sep s = [s].
Proof.
  unfold has_char. induction s as [|c s IH]; [done|]. cbn [existsb split_on].
  intros Hs. apply orb_false_iff in Hs as [Hc Hs].
  rewrite N.eqb_sym, Hc. by rewrite (IH Hs).
Qed.

Lemma split_on_app (sep : N) (u t : str) :
  has_char sep u = false ->
  split_on sep (u ++ sep :: t) = u :: split_on sep t.
Proof.
  unfold has_char. induction u as [|c u IH]; cbn [existsb app split_on].
  - intros _. by rewrite N.eqb_refl.
  - intros Hu. apply orb_false_iff in Hu as [Hc Hu].
    rewrite N.eqb_sym, Hc. by rewrite (IH Hu).
Qed.

Lemma split_on_join (sep : N) (urls : list str) :
  urls <> [] ->
  Forall (fun url => has_char sep url = false) urls ->
  split_on sep (join [sep] urls) = urls.
Proof.
  induction urls as [|u urls IH]; [done|]. intros _ Hall.
  inversion Hall as [|? ? Hu Hrest]; subst.
  destruct urls as [|v urls].
  - simpl. by apply split_on_whole.
  - change (join [sep] (u :: v :: urls)) with (u ++ sep :: join [sep] (v :: urls)).
    rewrite split_on_app by done. by rewrite IH.
Qed.

Lemma In_lstrip (c : N) (s : str) : In c (lstrip s) -> In c s.
Proof.
  induction s as [|x s IH]; simpl; [done|].
  destruct (isspace x); [|done]. intros Hc. right. by apply IH.
Qed.

Lemma has_char_strip (c : N) (s : str) :
  has_char c s = false -> has_char c (strip s) = false.
Proof.
  intros Hs. apply not_true_is_false. intros Hc. apply not_true_iff_false in Hs.
  apply Hs. unfold has_char in *. rewrite existsb_exists in *.
  destruct Hc as (x & Hin & Hx). exists x. split; [|done].
  unfold strip, rstrip in Hin. apply in_rev, In_lstrip, in_rev in Hin.
  by apply In_lstrip.
Qed.

(** X24.  Whatever the value of the environment variable, every URL the
    program is started with is non-empty, has no whitespace at either end
    and contains no comma. *)
Theorem configured_urls_well_formed (env : str) :
  Forall (fun url => url <> [] /\ strip url = url /\ has_char comma url = false)
    (SCREENER_URLS env).
Proof.
  unfold SCREENER_URLS. destruct (is_nil env); cbn [negb].
  { repeat constructor; by vm_compute. }
  destruct (split_on_pieces comma env) as [Hpieces _].
  induction (split_on comma env) as [|piece pieces IH]; [constructor|].
  inversion Hpieces as [|? ? Hpiece Hrest]; subst. cbn [List.filter].
  destruct (is_nil (strip piece)) eqn:Hnil; cbn [negb List.map]; [by apply IH|].
  constructor; [|by apply IH].
  split; [by apply is_nil_false|]. split; [apply strip_fix|].
  by apply has_char_strip.
Qed.

(** X25.  Configuration round trip: a non-empty list of URLs that are
    non-empty, trimmed and free of commas, joined with commas into the
    environment variable, is read back as that very list. *)
Theorem configured_urls_round_trip (urls : list str) :
  urls <> [] ->
  Forall (fun url => url <> [] /\ strip url = url /\ has_char comma url = false)
    urls ->
  SCREENER_URLS (join [comma] urls) = urls.
Proof.
  intros Hne Hall. unfold SCREENER_URLS.
  assert (is_nil (join [comma] urls) = false) as ->.
  { destruct urls as [|u [|v urls]]; [done| |].
    - inversion Hall as [|? ? (Hu & _) _]; subst. simpl. by apply is_nil_false.
    - inversion Hall as [|? ? (Hu & _) _]; subst.
      destruct u; [done|reflexivity]. }
  cbn [negb]. rewrite split_on_join; [|done|].
  2:{ eapply Forall_impl; [exact Hall|]. by intros url (_ & _ & ?). }
  clear Hne. induction urls as [|u urls IH]; [done|].
  inversion Hall as [|? ? (Hu & Hs & _) Hrest]; subst.
  cbn [List.filter]. rewrite Hs. apply is_nil_false in Hu. rewrite Hu.
  cbn [negb List.map]. by rewrite Hs, IH.
Qed.

Lemma configured_urls_round_trip_witness :
  SCREENER_URLS (join [comma] [example_url; scanx_url]) = [example_url; scanx_url].
Proof.
  apply (configured_urls_round_trip [example_url; scanx_url]).
  - discriminate.
  - repeat constructor; by vm_compute.
Defined.

(** Blanks around the commas and empty entries are dropped. *)
Example configured_urls_blanks :
  SCREENER_URLS (lit " https://a.example/x , ,https://b.example/y,")
  = [lit "https://a.example/x"; lit "https://b.example/y"].
Proof. reflexivity. Qed.

(** ** The monitoring loop *)

Section LoopFacts.

Variable urlparse_hostname : str -> exn + option str.
Variable lower : str -> str.

Lemma dict_set_Forall {V} (Q : str * V -> Prop) (k : str) (v : V)
    (d : list (str * V)) :
  Q (k, v) -> Forall Q d -> Forall Q (dict_set k v d).
Proof.
  intros Hkv. induction d as [|[k' v'] d IH]; intros Hd; simpl.
  - by repeat constructor.
  - inversion Hd; subst. case_decide; constructor; auto.
Qed.

Lemma test_loop_all_fail (ws : nat -> World) (self : Monitor) (urls : list str) :
  forall (i : nat) (results : list (str * bool)),
    (forall k url, urls !! k = Some url ->
       get_stocks_from_url urlparse_hostname lower (ws (i + k)%nat) self url = []) ->
    Forall (fun entry => snd entry = false) results ->
    Forall (fun entry => snd entry = false)
      (test_loop urlparse_hostname lower ws i self urls results).
Proof.
  induction urls as [|url rest IH]; intros i results Hall Hres; [done|].
  cbn [test_loop]. apply IH.
  - intros k u Hk. replace (S i + k)%nat with (i + S k)%nat by lia.
    by apply Hall.
  - apply dict_set_Forall; [|done].
    specialize (Hall 0%nat url eq_refl). rewrite Nat.add_0_r in Hall.
    by rewrite Hall.
Qed.

(** X26.  When the test of every configured URL extracts nothing,
    [run_monitor] returns before its loop: no message is sent, no
    screening is run and the monitor is left as it was. *)
Theorem startup_without_working_url
    (ws_test ws_init : nat -> World) (w : World) (self : Monitor) :
  (forall i url, screener_urls self !! i = Some url ->
     get_stocks_from_url urlparse_hostname lower (ws_test i) self url = []) ->
  run_monitor_startup urlparse_hostname lower ws_test ws_init w self = Stopped.
Proof.
  intros Hall. unfold run_monitor_startup, test_all_urls.
  pose proof (test_loop_all_fail ws_test self (screener_urls self) 0 []
                (fun k url Hk => Hall k url Hk) (List.Forall_nil _)) as Hfail.
  assert (List.filter (fun '(_, success) => success)
            (test_loop urlparse_hostname lower ws_test 0 self (screener_urls self) [])
          = []) as ->; [|done].
  induction Hfail as [|[url success] results Hs _ IH]; [done|].
  simpl in Hs. subst success. cbn [List.filter]. exact IH.
Qed.



Lemma alert_loop_nothing_new (clocks : nat -> World) (self : Monitor)
    (entries : list (str * list str)) :
  Forall (fun entry => snd entry = []) entries ->
  forall k sent,
    alert_loop urlparse_hostname clocks k self entries sent = sent.
Proof.
  induction 1 as [|[url new_stocks] entries Hnew _ IH]; intros k sent; [done|].
  simpl in Hnew. subst new_stocks. cbn [alert_loop is_nil]. apply IH.
Qed.

(** X28.  A turn of the monitoring loop over distinct URLs sends nothing
    when every source extracts what it extracted in the pass before, be
    that pass the initial screening or an earlier turn. *)
Theorem unchanged_pages_send_nothing
    (ws0 ws1 clocks : nat -> World) (self : Monitor) :
  NoDup (screener_urls self) ->
  (forall i url, screener_urls self !! i = Some url ->
     get_stocks_from_url urlparse_hostname lower (ws1 i) self url
     = get_stocks_from_url urlparse_hostname lower (ws0 i) self url) ->
  fst (monitor_turn urlparse_hostname lower ws1 clocks
         (snd (perform_stock_screening_for_all_urls urlparse_hostname lower
                 ws0 self)))
  = [].
Proof.
  intros Hnd Hsame.
  unfold monitor_turn, perform_stock_screening_for_all_urls.
  destruct (screening_loop_spec urlparse_hostname lower ws0
              (screener_urls self) 0 self [] Hnd)
    as (_ & Hstore0 & _ & Hsel0 & Hurls0).
  { intros u _. apply not_elem_of_nil. }
  set (self0 := snd (screening_loop urlparse_hostname lower ws0 0
                       (screener_urls self) self [])) in *.
  rewrite Hurls0.
  destruct (screening_loop_spec urlparse_hostname lower ws1
              (screener_urls self) 0 self0 [] Hnd)
    as (Hreport & _).
  { intros u _. apply not_elem_of_nil. }
  destruct (screening_loop urlparse_hostname lower ws1 0
              (screener_urls self) self0 []) as [report self1].
  cbn [fst snd] in *. subst report. cbn [app].
  apply alert_loop_nothing_new.
  apply List.Forall_forall. intros [u new_stocks] Hin.
  apply list_elem_of_In, list_elem_of_lookup in Hin as [k Hk].
  rewrite list_lookup_imap in Hk.
  destruct (screener_urls self !! k) as [url|] eqn:Hurl; [|discriminate Hk].
  cbn in Hk. injection Hk as <- <-. cbn [snd].
  pose proof (Hstore0 k url Hurl) as Hstore. cbn [Nat.add] in Hstore.
  rewrite (extraction_reads_selectors _ _ (ws1 k) self0 self url Hsel0).
  rewrite (Hsame k url Hurl), Hstore, diff_snapshot.
  destruct (get_stocks_from_url urlparse_hostname lower (ws0 k) self url)
    as [|x l] eqn:Hc.
  - cbn [is_nil]. replace (list_to_set [] : gset str) with (∅ : gset str) by done.
    rewrite empty_difference_L. apply elements_empty.
  - cbn [is_nil default]. rewrite difference_diag_L. apply elements_empty.
Qed.

End LoopFacts.

Lemma startup_without_working_url_witness :
  run_monitor_startup hostname_of ascii_lower
    (fun _ => offline morning) (fun _ => offline morning) (offline morning)
    (init [example_url; scanx_url] 300)
  = Stopped.
Proof.
  apply (startup_without_working_url hostname_of ascii_lower
           (fun _ => offline morning) (fun _ => offline morning) (offline morning)
           (init [example_url; scanx_url] 300)).
  intros i url _. reflexivity.
Defined.


Lemma unchanged_pages_send_nothing_witness :
  let ws := fun _ : nat => serving (page (lit ".ticker") [lit "AAPL"]) morning in
  let self := init [example_url] 300 in
  fst (monitor_turn hostname_of ascii_lower ws ws
         (snd (perform_stock_screening_for_all_urls hostname_of ascii_lower ws self)))
  = [].
Proof.
  intros ws self.
  apply (unchanged_pages_send_nothing hostname_of ascii_lower ws ws ws self).
  - apply NoDup_singleton.
  - intros i url _. reflexivity.
Defined.

(** A turn after a change of the page sends the alert for what is new. *)
Example changed_page_sends_alert :
  let ws0 := fun _ : nat => serving (page (lit ".ticker") [lit "AAPL"]) morning in
  let ws1 := fun _ : nat =>
               serving (page (lit ".ticker") [lit "AAPL"; lit "TSLA"]) later in
  let self := init [example_url] 300 in
  fst (monitor_turn hostname_of ascii_lower ws1 ws1
         (snd (perform_stock_screening_for_all_urls hostname_of ascii_lower ws0 self)))
  = [alert_one later example_url (Some (lit "example.com")) (lit "TSLA")].
Proof. vm_compute. reflexivity. Qed.

(** ** Extraction through the proxy *)

Section ProxyFacts.

Variable urlparse_hostname : str -> exn + option str.
Variable lower : str -> str.
Variable quote : str -> str.
Variable requests_get_proxy : str -> exn + Response.

(** X29.  The extraction through the proxy returns no empty and no
    untrimmed identifier; it returns nothing at all for a URL without a
    host name, whatever the proxy answers; and for a host other than
    scanx.trade everything it returns has passed the validator. *)
Theorem proxy_identifiers (url : str) :
  Forall (fun x => strip x = x /\ x <> [])
    (get_stocks_with_proxy urlparse_hostname lower quote requests_get_proxy url)
  /\ (urlparse_hostname url = inr None ->
      get_stocks_with_proxy urlparse_hostname lower quote requests_get_proxy url
      = [])
  /\ (forall domain,
        hostname_lower urlparse_hostname lower url = inr domain ->
        contains (lit "scanx.trade") domain = false ->
        Forall (fun x => _is_valid_stock_symbol x = true)
          (get_stocks_with_proxy urlparse_hostname lower quote
             requests_get_proxy url)).
Proof.
  unfold get_stocks_with_proxy.
  destruct (requests_get_proxy _) as [e|response];
    [repeat split; intros; constructor|].
  destruct (status_code response =? 200)%Z;
    [|repeat split; intros; constructor].
  destruct (soup_of response) as [e|soup];
    [repeat split; intros; constructor|].
  split; [|split].
  - destruct (hostname_lower urlparse_hostname lower url) as [e|domain];
      [constructor|].
    destruct (contains (lit "scanx.trade") domain).
    + eapply Forall_impl; [apply scanx_names_inv|].
      intros x (Hn & _ & Hl). split; [by apply normalized_trimmed|].
      intros ->. simpl in Hl. lia.
    + apply tables_keeps. intros t Hv.
      split; [apply strip_fix|by apply validated_nonempty].
  - intros Hnone. unfold hostname_lower. by rewrite Hnone.
  - intros domain Hdom Hgeneric. rewrite Hdom, Hgeneric.
    apply tables_keeps. by intros t Hv.
Qed.

End ProxyFacts.

Lemma proxy_identifiers_witness :
  hostname_of relative_url = inr None
  /\ get_stocks_with_proxy hostname_of ascii_lower (fun url => url)
       (fun _ => inr (mkResponse 200 (inr (table_of [row_of [lit "INFY"]]))))
       relative_url
     = [].
Proof.
  assert (hostname_of relative_url = inr None) as H by reflexivity.
  split; [exact H|].
  exact (proj1 (proj2 (proxy_identifiers hostname_of ascii_lower (fun url => url)
                         (fun _ => inr (mkResponse 200
                                          (inr (table_of [row_of [lit "INFY"]]))))
                         relative_url)) H).
Defined.
